(** * Credential lifecycle and usage accounting of [scripts/firebase_manager.py]

    A shallow embedding of the [FirebaseManager] class: the two dataclasses
    [ApiKey] and [UsageLog], the operations that create, validate, revoke,
    delete and list keys, the usage log and its statistics, together with
    the parts of Python and of the Firestore client the code relies on
    (dynamic values, [str.replace], keyword-argument construction of a
    dataclass, name lookup, naive datetimes, SHA-256).

    The database is the one the client library presents to the code: a
    request that the library sends is answered, and what the library
    itself refuses before sending (an integer that does not fit 64 bits,
    an object that is no data) is refused here too.  Text is UTF-8: a
    [string] stands for a [str] by the bytes of its encoding. *)

From Stdlib Require Import ZArith List String Ascii Bool Lia QArith Qround.
Import ListNotations.

Local Open Scope string_scope.
Local Open Scope Z_scope.
Set Warnings "-register-all".

(* ================================================================== *)
(** ** Python values and exceptions *)
(* ================================================================== *)

(** The exceptions the modelled code can raise.  [NotFound] is the
    Firestore client's error for an update of a missing document;
    [UnicodeEncodeError] is what [str.encode] raises. *)
Inductive exn : Type :=
| TypeError | NameError | AttributeError | KeyError | ValueError
| OverflowError | NotFound | UnicodeEncodeError | ImportError.

Inductive Res (A : Type) : Type :=
| Ok (a : A)
| Raise (e : exn).
Arguments Ok {A} a.
Arguments Raise {A} e.

(** A [str] handed in by a caller: one that has a UTF-8 encoding, given
    by the bytes of that encoding, or one that has none because it holds a
    lone surrogate. *)
Inductive pystr : Type :=
| Utf8 (bytes : string)
| Unencodable.

Coercion Utf8 : string >-> pystr.

(** [s.encode()] *)
Definition str_encode (s : pystr) : Res string :=
  match s with
  | Utf8 bytes => Ok bytes
  | Unencodable => Raise UnicodeEncodeError
  end.

(** Dynamically typed values: what a Firestore document field or a
    dataclass attribute may hold.  A [str] held in a field is modelled by
    the bytes of its UTF-8 encoding; a [str] without one ([Unencodable])
    occurs only where the code encodes a caller's [str] itself, in
    [validate_api_key].  Floats are idealised as rationals; [VBuiltin] is
    a bound built-in method. *)
Inductive value : Type :=
| VNone
| VBool (b : bool)
| VInt (z : Z)
| VFloat (q : Q)
| VStr (s : string)
| VList (l : list value)
| VDict (d : list (string * value))
| VBuiltin (name : string).

(** A [dict] with string keys, in insertion order, keys unique. *)
Definition dict : Type := list (string * value).

Fixpoint dict_get (k : string) (d : dict) : option value :=
  match d with
  | [] => None
  | (k', v) :: d' => if String.eqb k k' then Some v else dict_get k d'
  end.

(** [d[k] = v]: overwrite in place, or append. *)
Fixpoint dict_set (k : string) (v : value) (d : dict) : dict :=
  match d with
  | [] => [(k, v)]
  | (k', v') :: d' =>
      if String.eqb k k' then (k', v) :: d' else (k', v') :: dict_set k v d'
  end.

Definition dict_has (k : string) (d : dict) : bool :=
  match dict_get k d with Some _ => true | None => false end.

(** [d.update(u)] *)
Definition dict_update (u d : dict) : dict :=
  fold_left (fun acc kv => dict_set (fst kv) (snd kv) acc) u d.

(** [{f(k): v for k, v in d.items()}] *)
Definition dict_map_keys (f : string -> string) (d : dict) : dict :=
  fold_left (fun acc kv => dict_set (f (fst kv)) (snd kv) acc) d [].

(** Truth value of an object, as [if x:] and [not x] test it. *)
Definition truthy (v : value) : bool :=
  match v with
  | VNone => false
  | VBool b => b
  | VInt z => negb (z =? 0)
  | VFloat q => negb (Qeq_bool q 0)
  | VStr s => negb (String.eqb s "")
  | VList l => match l with [] => false | _ => true end
  | VDict d => match d with [] => false | _ => true end
  | VBuiltin _ => true
  end.

(** Numbers ([bool] is a subclass of [int]); anything else is a
    [TypeError] in arithmetic and in comparison with a number. *)
Definition py_num (v : value) : Res Q :=
  match v with
  | VBool b => Ok (inject_Z (if b then 1 else 0))
  | VInt z => Ok (inject_Z z)
  | VFloat q => Ok q
  | _ => Raise TypeError
  end.

(** [a <= b] and [a < b] on two numbers or two [str]; a mixed pair is a
    [TypeError].  (Python also orders two lists; the code compares no
    list.) *)
Definition py_le (a b : value) : Res bool :=
  match a, b with
  | VStr x, VStr y => Ok (String.leb x y)
  | _, _ =>
      match py_num a, py_num b with
      | Ok x, Ok y => Ok (Qle_bool x y)
      | _, _ => Raise TypeError
      end
  end.

Definition py_lt (a b : value) : Res bool :=
  match a, b with
  | VStr x, VStr y => Ok (String.ltb x y)
  | _, _ =>
      match py_num a, py_num b with
      | Ok x, Ok y => Ok (negb (Qle_bool y x))
      | _, _ => Raise TypeError
      end
  end.

(** [v + 1] *)
Definition py_add1 (v : value) : Res value :=
  match v with
  | VBool b => Ok (VInt ((if b then 1 else 0) + 1))
  | VInt z => Ok (VInt (z + 1))
  | VFloat q => Ok (VFloat (q + 1))
  | _ => Raise TypeError
  end.

(** The public attributes of a [dict] object: its methods, nothing
    else. *)
Definition dict_attributes : list string :=
  ["clear"; "copy"; "fromkeys"; "get"; "items"; "keys"; "pop"; "popitem";
   "setdefault"; "update"; "values"].

(** [d.name] on a [dict] is a bound method for the names above and an
    [AttributeError] otherwise: keys are not attributes. *)
Definition dict_getattr (d : dict) (name : string) : Res value :=
  if existsb (String.eqb name) dict_attributes
  then Ok (VBuiltin name)
  else Raise AttributeError.

(* ------------------------------------------------------------------ *)
(** *** [str.replace] *)

Fixpoint drop_prefix (p s : string) : option string :=
  match p, s with
  | EmptyString, _ => Some s
  | String a p', String b s' => if Ascii.eqb a b then drop_prefix p' s' else None
  | String _ _, EmptyString => None
  end.

(** Left to right, non-overlapping; [skip] counts the characters of a
    match still to be passed over. *)
Fixpoint replace_from (old new : string) (skip : nat) (s : string) : string :=
  match s with
  | EmptyString => EmptyString
  | String c s' =>
      match skip with
      | S k => replace_from old new k s'
      | O =>
          match drop_prefix old s with
          | Some _ => new ++ replace_from old new (String.length old - 1) s'
          | None => String c (replace_from old new 0 s')
          end
      end
  end.

Fixpoint intersperse (new s : string) : string :=
  match s with
  | EmptyString => new
  | String c s' => new ++ String c (intersperse new s')
  end.

(** [s.replace(old, new)] *)
Definition replace (old new s : string) : string :=
  match old with
  | EmptyString => intersperse new s
  | _ => replace_from old new 0 s
  end.

(* ------------------------------------------------------------------ *)
(** *** Decimal and hexadecimal formatting *)

Definition digit_char (d : Z) : ascii :=
  ascii_of_nat (Z.to_nat (if d <? 10 then 48 + d else 87 + d)).

(** The [width] lowest digits of [n] in [base], most significant first. *)
Fixpoint digits (base : Z) (width : nat) (n : Z) (acc : string) : string :=
  match width with
  | O => acc
  | S w => digits base w (n / base) (String (digit_char (n mod base)) acc)
  end.

(** ["%0<width>d" % n] for [0 <= n < 10^width]. *)
Definition zpad (width : nat) (n : Z) : string := digits 10 width n "".

Definition digit_val (c : ascii) : option Z :=
  let n := Z.of_nat (nat_of_ascii c) in
  if (48 <=? n) && (n <=? 57) then Some (n - 48) else None.

Fixpoint parse_digits (s : string) (acc : Z) : option Z :=
  match s with
  | EmptyString => Some acc
  | String c s' =>
      match digit_val c with
      | Some d => parse_digits s' (10 * acc + d)
      | None => None
      end
  end.

(* ================================================================== *)
(** ** SHA-256, as [hashlib.sha256(data).hexdigest()] computes it *)
(* ================================================================== *)

Module SHA256.

Definition w32 (x : Z) : Z := Z.land x 0xFFFFFFFF.
Definition add32 (x y : Z) : Z := w32 (x + y).
Definition rotr (n x : Z) : Z :=
  Z.lor (Z.shiftr x n) (w32 (Z.shiftl x (32 - n))).
Definition not32 (x : Z) : Z := Z.lxor x 0xFFFFFFFF.

Definition Ch (x y z : Z) : Z := Z.lxor (Z.land x y) (Z.land (not32 x) z).
Definition Maj (x y z : Z) : Z :=
  Z.lxor (Z.lxor (Z.land x y) (Z.land x z)) (Z.land y z).
Definition Sigma0 (x : Z) : Z :=
  Z.lxor (Z.lxor (rotr 2 x) (rotr 13 x)) (rotr 22 x).
Definition Sigma1 (x : Z) : Z :=
  Z.lxor (Z.lxor (rotr 6 x) (rotr 11 x)) (rotr 25 x).
Definition sigma0 (x : Z) : Z :=
  Z.lxor (Z.lxor (rotr 7 x) (rotr 18 x)) (Z.shiftr x 3).
Definition sigma1 (x : Z) : Z :=
  Z.lxor (Z.lxor (rotr 17 x) (rotr 19 x)) (Z.shiftr x 10).

(** The round constants are the first 32 bits of the fractional parts of
    the cube roots of the first 64 primes, the initial hash value those of
    the square roots of the first 8. *)
Definition is_prime (n : Z) : bool :=
  (1 <? n)
  && forallb (fun d => negb (n mod d =? 0) || (n <=? d))
       (map Z.of_nat (seq 2 (Z.to_nat (Z.sqrt n)))).

Definition primes (count : nat) : list Z :=
  firstn count (filter is_prime (map Z.of_nat (seq 2 310))).

(** The largest [r] below [2^bits] with [r^3 <= n], bit by bit. *)
Fixpoint cube_root (bits : nat) (n r : Z) : Z :=
  match bits with
  | O => r
  | S b =>
      let r' := r + Z.shiftl 1 (Z.of_nat b) in
      cube_root b n (if r' * r' * r' <=? n then r' else r)
  end.

Definition K : list Z :=
  map (fun p => w32 (cube_root 36 (Z.shiftl p 96) 0)) (primes 64).

Definition H0 : list Z :=
  map (fun p => w32 (Z.sqrt (Z.shiftl p 64))) (primes 8).

Fixpoint bytes_of (s : string) : list Z :=
  match s with
  | EmptyString => []
  | String c s' => Z.of_nat (nat_of_ascii c) :: bytes_of s'
  end.

(** Message, then 0x80, then zeros up to 56 mod 64, then the bit length
    on eight bytes, big-endian. *)
Definition pad (msg : list Z) : list Z :=
  let n := Z.of_nat (List.length msg) in
  let zeros := Z.to_nat ((55 - n) mod 64) in
  let bits := 8 * n in
  msg ++ [0x80] ++ repeat 0 zeros
      ++ map (fun i => Z.land (Z.shiftr bits (8 * i)) 0xFF) [7; 6; 5; 4; 3; 2; 1; 0].

Fixpoint words (bs : list Z) : list Z :=
  match bs with
  | a :: b :: c :: d :: r =>
      Z.lor (Z.lor (Z.shiftl a 24) (Z.shiftl b 16)) (Z.lor (Z.shiftl c 8) d)
        :: words r
  | _ => []
  end.

(** The schedule is grown newest word first: [ws] holds W[t-1], W[t-2], ... *)
Fixpoint extend (n : nat) (ws : list Z) : list Z :=
  match n with
  | O => ws
  | S n' =>
      let w := add32 (add32 (sigma1 (nth 1 ws 0)) (nth 6 ws 0))
                     (add32 (sigma0 (nth 14 ws 0)) (nth 15 ws 0)) in
      extend n' (w :: ws)
  end.

Definition schedule (block : list Z) : list Z :=
  rev (extend 48 (rev block)).

Definition round (st : list Z) (kw : Z * Z) : list Z :=
  match st with
  | [a; b; c; d; e; f; g; h] =>
      let t1 := add32 (add32 (add32 h (Sigma1 e)) (add32 (Ch e f g) (fst kw)))
                      (snd kw) in
      let t2 := add32 (Sigma0 a) (Maj a b c) in
      [add32 t1 t2; a; b; c; add32 d t1; e; f; g]
  | _ => st
  end.

Definition compress (h : list Z) (block : list Z) : list Z :=
  let st := fold_left round (combine K (schedule block)) h in
  map (fun p => add32 (fst p) (snd p)) (combine h st).

Fixpoint blocks (fuel : nat) (ws : list Z) (h : list Z) : list Z :=
  match fuel, ws with
  | S fuel', _ :: _ => blocks fuel' (skipn 16 ws) (compress h (firstn 16 ws))
  | _, _ => h
  end.

Definition digest_words (s : string) : list Z :=
  let ws := words (pad (bytes_of s)) in
  blocks (List.length ws) ws H0.

Definition hexdigest (s : string) : string :=
  fold_right (fun w acc => digits 16 8 w "" ++ acc) "" (digest_words s).

End SHA256.


(* ================================================================== *)
(** ** Naive datetimes, as [datetime.datetime] holds them *)
(* ================================================================== *)

Record datetime : Type := mkDatetime {
  year : Z; month : Z; day : Z;
  hour : Z; minute : Z; second : Z; microsecond : Z
}.

Definition is_leap (y : Z) : bool :=
  (y mod 4 =? 0) && (negb (y mod 100 =? 0) || (y mod 400 =? 0)).

Definition days_in_month (y m : Z) : Z :=
  if m =? 2 then (if is_leap y then 29 else 28)
  else if (m =? 4) || (m =? 6) || (m =? 9) || (m =? 11) then 30 else 31.

Definition DAYS_BEFORE_MONTH : list Z :=
  [0; 0; 31; 59; 90; 120; 151; 181; 212; 243; 273; 304; 334].

Definition days_before_year (y : Z) : Z :=
  let p := y - 1 in p * 365 + p / 4 - p / 100 + p / 400.

Definition days_before_month (y m : Z) : Z :=
  nth (Z.to_nat m) DAYS_BEFORE_MONTH 0
  + (if (2 <? m) && is_leap y then 1 else 0).

(** Proleptic Gregorian ordinal: 1 is 0001-01-01. *)
Definition ymd2ord (y m d : Z) : Z :=
  days_before_year y + days_before_month y m + d.

Definition MAXORDINAL : Z := 3652059.

Definition ord2ymd (ordinal : Z) : Z * Z * Z :=
  let n := ordinal - 1 in
  let n400 := n / 146097 in let n := n mod 146097 in
  let n100 := n / 36524 in let n := n mod 36524 in
  let n4 := n / 1461 in let n := n mod 1461 in
  let n1 := n / 365 in let n := n mod 365 in
  let y := n400 * 400 + 1 + n100 * 100 + n4 * 4 + n1 in
  if (n1 =? 4) || (n100 =? 4) then (y - 1, 12, 31)
  else
    let leapyear := (n1 =? 3) && (negb (n4 =? 24) || (n100 =? 3)) in
    let m := Z.shiftr (n + 50) 5 in
    let preceding :=
      nth (Z.to_nat m) DAYS_BEFORE_MONTH 0
      + (if (2 <? m) && leapyear then 1 else 0) in
    if n <? preceding then
      let m' := m - 1 in
      let preceding' :=
        preceding - (days_in_month 1 m'
                     + (if (m' =? 2) && leapyear then 1 else 0)) in
      (y, m', n - preceding' + 1)
    else (y, m, n - preceding + 1).

Definition toordinal (t : datetime) : Z := ymd2ord (year t) (month t) (day t).

(** [t + timedelta(days=n)]: [timedelta] refuses more than 999999999 days,
    the sum refuses a date outside years 1 to 9999. *)
Definition add_days (t : datetime) (n : Z) : Res datetime :=
  if 999999999 <? Z.abs n then Raise OverflowError
  else
    let o := toordinal t + n in
    if (0 <? o) && (o <=? MAXORDINAL) then
      let '(y, m, d) := ord2ymd o in
      Ok (mkDatetime y m d (hour t) (minute t) (second t) (microsecond t))
    else Raise OverflowError.

(** Comparison of naive datetimes: field by field. *)
Definition dt_key (t : datetime) : list Z :=
  [year t; month t; day t; hour t; minute t; second t; microsecond t].

Fixpoint lex_lt (a b : list Z) : bool :=
  match a, b with
  | x :: a', y :: b' => (x <? y) || ((x =? y) && lex_lt a' b')
  | [], _ :: _ => true
  | _, _ => false
  end.

Definition dt_lt (a b : datetime) : bool := lex_lt (dt_key a) (dt_key b).

(** [t.isoformat()] *)
Definition isoformat (t : datetime) : string :=
  zpad 4 (year t) ++ "-" ++ zpad 2 (month t) ++ "-" ++ zpad 2 (day t) ++ "T"
  ++ zpad 2 (hour t) ++ ":" ++ zpad 2 (minute t) ++ ":" ++ zpad 2 (second t)
  ++ (if microsecond t =? 0 then "" else "." ++ zpad 6 (microsecond t)).

Definition well_formed (t : datetime) : bool :=
  (1 <=? year t) && (year t <=? 9999) && (1 <=? month t) && (month t <=? 12)
  && (1 <=? day t) && (day t <=? days_in_month (year t) (month t))
  && (0 <=? hour t) && (hour t <? 24) && (0 <=? minute t) && (minute t <? 60)
  && (0 <=? second t) && (second t <? 60)
  && (0 <=? microsecond t) && (microsecond t <? 1000000).

Definition field (s : string) (start len : nat) : option Z :=
  parse_digits (substring start len s) 0.

Definition char_is (s : string) (i : nat) (c : string) : bool :=
  String.eqb (substring i 1 s) c.

(** [datetime.fromisoformat(s)] on the two shapes [isoformat] writes,
    [YYYY-MM-DDTHH:MM:SS] and [YYYY-MM-DDTHH:MM:SS.ffffff]; any other
    string is a [ValueError] here (later Python versions read further ISO
    8601 shapes, none of which [isoformat] produces). *)
Definition fromisoformat (s : string) : Res datetime :=
  let n := String.length s in
  if negb ((n =? 19)%nat || (n =? 26)%nat) then Raise ValueError
  else if negb (char_is s 4 "-" && char_is s 7 "-" && char_is s 13 ":"
                && char_is s 16 ":" && (String.length (substring 10 1 s) =? 1)%nat)
  then Raise ValueError
  else if (n =? 26)%nat && negb (char_is s 19 ".") then Raise ValueError
  else
    match field s 0 4, field s 5 2, field s 8 2,
          field s 11 2, field s 14 2, field s 17 2,
          (if (n =? 26)%nat then field s 20 6 else Some 0) with
    | Some y, Some mo, Some d, Some h, Some mi, Some sec, Some us =>
        let t := mkDatetime y mo d h mi sec us in
        if well_formed t then Ok t else Raise ValueError
    | _, _, _, _, _, _, _ => Raise ValueError
    end.


(* ================================================================== *)
(** ** Results, state and output *)
(* ================================================================== *)

Definition Res_bind {A B : Type} (c : Res A) (k : A -> Res B) : Res B :=
  match c with
  | Ok a => k a
  | Raise e => Raise e
  end.

Notation "x <~ c ;; k" := (Res_bind c (fun x => k))
  (at level 61, c at next level, right associativity).

(** [round(q, 2)], ties to even. *)
Definition round2 (q : Q) : Q :=
  let y := Qmult q (inject_Z 100) in
  let f := Qfloor y in
  let twice := Qminus (Qmult (inject_Z 2) y) (inject_Z (2 * f)) in
  let up :=
    match Qcompare twice (inject_Z 1) with
    | Lt => false
    | Gt => true
    | Eq => Z.odd f
    end in
  Qmake (if up then f + 1 else f) 100.

(* ================================================================== *)
(** ** The Firestore database, as the client sees it *)
(* ================================================================== *)

(** A collection: document id and fields, in the order [stream()] yields
    them. *)
Definition collection : Type := list (string * dict).

Record Firestore : Type := mkFirestore {
  apiKeys : collection;
  usageLogs : collection
}.

(** An integer field is a signed 64-bit integer. *)
Definition in_int64 (z : Z) : bool :=
  (- 2 ^ 63 <=? z) && (z <? 2 ^ 63).

(** The conversion of a value into a field of a document, which every
    write makes before anything is sent: an integer outside 64 bits is a
    [ValueError], an object that is no data a [TypeError]. *)
Fixpoint encode_value (v : value) : Res unit :=
  match v with
  | VInt z => if in_int64 z then Ok tt else Raise ValueError
  | VList l =>
      (fix each (l : list value) : Res unit :=
         match l with
         | [] => Ok tt
         | x :: l' =>
             match encode_value x with
             | Ok _ => each l'
             | Raise e => Raise e
             end
         end) l
  | VDict d =>
      (fix each (d : list (string * value)) : Res unit :=
         match d with
         | [] => Ok tt
         | (_, x) :: d' =>
             match encode_value x with
             | Ok _ => each d'
             | Raise e => Raise e
             end
         end) d
  | VBuiltin _ => Raise TypeError
  | VNone | VBool _ | VFloat _ | VStr _ => Ok tt
  end.

(** The conversion of the fields given to [set] or [update]. *)
Definition encode_fields (d : dict) : Res unit := encode_value (VDict d).

(** [collection.document(id).get()]: [None] when [exists] is false. *)
Fixpoint doc_get (id : string) (c : collection) : option dict :=
  match c with
  | [] => None
  | (i, d) :: c' => if String.eqb id i then Some d else doc_get id c'
  end.

Definition doc_exists (id : string) (c : collection) : bool :=
  match doc_get id c with Some _ => true | None => false end.

(** [document(id).set(data)]: create or overwrite. *)
Fixpoint doc_set (id : string) (data : dict) (c : collection) : collection :=
  match c with
  | [] => [(id, data)]
  | (i, d) :: c' =>
      if String.eqb id i then (i, data) :: c' else (i, d) :: doc_set id data c'
  end.

(** [document(id).update(fields)]: the document must exist. *)
Fixpoint doc_update (id : string) (fields : dict) (c : collection)
  : Res collection :=
  match c with
  | [] => Raise NotFound
  | (i, d) :: c' =>
      if String.eqb id i then Ok ((i, dict_update fields d) :: c')
      else c'' <~ doc_update id fields c' ;; Ok ((i, d) :: c'')
  end.

(** [document(id).delete()] *)
Fixpoint doc_delete (id : string) (c : collection) : collection :=
  match c with
  | [] => []
  | (i, d) :: c' =>
      if String.eqb id i then c' else (i, d) :: doc_delete id c'
  end.

Definition field_is (field : string) (v : string) (d : dict) : bool :=
  match dict_get field d with
  | Some (VStr s) => String.eqb s v
  | _ => false
  end.

(** [collection.where(field, "==", v).stream()] for a string [v]. *)
Definition where_eq (field : string) (v : string) (c : collection)
  : list (string * dict) :=
  filter (fun doc => field_is field v (snd doc)) c.

(** [snapshot.get(field)]: [None] on a missing document, [KeyError] on a
    missing field. *)
Definition snapshot_get (snapshot : option dict) (field : string) : Res value :=
  match snapshot with
  | None => Ok VNone
  | Some d =>
      match dict_get field d with
      | Some v => Ok v
      | None => Raise KeyError
      end
  end.

(** [d[k]] *)
Definition dict_getitem (d : dict) (k : string) : Res value :=
  match dict_get k d with
  | Some v => Ok v
  | None => Raise KeyError
  end.

(* ------------------------------------------------------------------ *)
(** *** The manager's state and what it prints *)

Definition newline : string := String (ascii_of_nat 10) EmptyString.

(** An f-string: literal text and interpolated values. *)
Inductive piece : Type :=
| Lit (s : string)
| Val (v : value).

Definition line : Type := list piece.

(** [db] is [self.db]: [None] in demo mode, else the database the client
    is connected to.  [stdout] collects the printed lines, oldest first. *)
Record World : Type := mkWorld {
  db : option Firestore;
  stdout : list line
}.

Definition M (A : Type) : Type := World -> Res A * World.

Definition ret {A : Type} (a : A) : M A := fun w => (Ok a, w).

Definition bind {A B : Type} (c : M A) (k : A -> M B) : M B :=
  fun w =>
    match c w with
    | (Ok a, w') => k a w'
    | (Raise e, w') => (Raise e, w')
    end.

Definition lift {A : Type} (r : Res A) : M A := fun w => (r, w).

Definition raise {A : Type} (e : exn) : M A := lift (Raise e).

Definition print (l : line) : M unit :=
  fun w => (Ok tt, mkWorld (db w) (stdout w ++ [l])).

Definition get_db : M (option Firestore) := fun w => (Ok (db w), w).

Definition put_db (st : Firestore) : M unit :=
  fun w => (Ok tt, mkWorld (Some st) (stdout w)).

Declare Scope py_scope.
Delimit Scope py_scope with py.
Notation "x <- c ;; k" := (bind c (fun x => k))
  (at level 61, c at next level, right associativity) : py_scope.
Notation "c ;; k" := (bind c (fun _ => k))
  (at level 61, right associativity) : py_scope.
Local Open Scope py_scope.

(** A [for] loop whose body may [return]: [Some b] leaves the loop with
    [b], [None] goes on to the next element. *)
Fixpoint for_each {A B : Type} (l : list A) (body : A -> M (option B))
  : M (option B) :=
  match l with
  | [] => ret None
  | x :: l' =>
      r <- body x ;;
      match r with
      | Some b => ret (Some b)
      | None => for_each l' body
      end
  end.

(** A list comprehension whose element expression may raise. *)
Fixpoint map_res {A B : Type} (f : A -> Res B) (l : list A) : Res (list B) :=
  match l with
  | [] => Ok []
  | x :: l' => y <~ f x ;; ys <~ map_res f l' ;; Ok (y :: ys)
  end.

(** The names bound at module level of [firebase_manager.py]: its imports,
    classes and [main].  The [firestore] imported inside [__init__] is a
    local of that function. *)
Definition module_globals : list string :=
  ["argparse"; "json"; "os"; "hashlib"; "secrets"; "datetime"; "timedelta";
   "Optional"; "dataclass"; "asdict"; "uuid";
   "ApiKey"; "UsageLog"; "FirebaseManager"; "main"].

(** Evaluation of a free name inside a method. *)
Definition load_global (name : string) : Res unit :=
  if existsb (String.eqb name) module_globals then Ok tt else Raise NameError.


(* ================================================================== *)
(** ** The dataclasses *)
(* ================================================================== *)

Module ApiKey.

(** A dataclass checks no types: every attribute holds whatever value
    the constructor was given. *)
Record t : Type := mk {
  id : value;
  key_hash : value;
  user_id : value;
  user_email : value;
  name : value;
  description : value;
  created_at : value;
  start_date : value;
  expires_at : value;
  is_active : value;
  request_count : value;
  rate_limit : value;
  allowed_endpoints : value;
  last_used_at : value;
  ip_whitelist : value;
  metadata : value
}.

Definition to_dict (self : t) : dict :=
  [("id", id self);
   ("keyHash", key_hash self);
   ("userId", user_id self);
   ("userEmail", user_email self);
   ("name", name self);
   ("description", description self);
   ("createdAt", created_at self);
   ("startDate", start_date self);
   ("expiresAt", expires_at self);
   ("isActive", is_active self);
   ("requestCount", request_count self);
   ("rateLimit", rate_limit self);
   ("allowedEndpoints", allowed_endpoints self);
   ("lastUsedAt", last_used_at self);
   ("ipWhitelist", ip_whitelist self);
   ("metadata", metadata self)].

(** The parameters of the generated [__init__]; the last three default to
    [None]. *)
Definition required : list string :=
  ["id"; "key_hash"; "user_id"; "user_email"; "name"; "description";
   "created_at"; "start_date"; "expires_at"; "is_active"; "request_count";
   "rate_limit"; "allowed_endpoints"].

Definition parameters : list string :=
  required ++ ["last_used_at"; "ip_whitelist"; "metadata"].

Definition arg (kw : dict) (p : string) : value :=
  match dict_get p kw with
  | Some v => v
  | None => VNone
  end.

(** The constructor called with the keyword arguments [kw]: a keyword
    that is no parameter, or a required parameter left out, is a
    [TypeError]. *)
Definition init (kw : dict) : Res t :=
  if forallb (fun kv => existsb (String.eqb (fst kv)) parameters) kw
     && forallb (fun p => dict_has p kw) required
  then Ok (mk (arg kw "id") (arg kw "key_hash") (arg kw "user_id")
              (arg kw "user_email") (arg kw "name") (arg kw "description")
              (arg kw "created_at") (arg kw "start_date") (arg kw "expires_at")
              (arg kw "is_active") (arg kw "request_count") (arg kw "rate_limit")
              (arg kw "allowed_endpoints") (arg kw "last_used_at")
              (arg kw "ip_whitelist") (arg kw "metadata"))
  else Raise TypeError.

End ApiKey.

Module UsageLog.

Record t : Type := mk {
  id : string;
  api_key_id : string;
  endpoint : string;
  method : string;
  status_code : Z;
  response_time : Z;
  timestamp : string;
  ip_address : string;
  user_agent : string;
  query_params : option dict
}.

Definition to_dict (self : t) : dict :=
  [("id", VStr (id self));
   ("apiKeyId", VStr (api_key_id self));
   ("endpoint", VStr (endpoint self));
   ("method", VStr (method self));
   ("statusCode", VInt (status_code self));
   ("responseTime", VInt (response_time self));
   ("timestamp", VStr (timestamp self));
   ("ipAddress", VStr (ip_address self));
   ("userAgent", VStr (user_agent self));
   ("queryParams", match query_params self with
                   | Some q => VDict q
                   | None => VNone
                   end)].

End UsageLog.

(* ================================================================== *)
(** ** [FirebaseManager] *)
(* ================================================================== *)

(** What the process finds when the manager is built: whether
    [import firebase_admin] and the import of its [credentials] and
    [firestore] modules succeed, whether an app is already initialised,
    the environment variable, the outcome of building a certificate from
    a JSON text or from a file, of [initialize_app], and of
    [firestore.client()]: the database it connects to, or what it
    raises. *)
Record Host : Type := mkHost {
  firebase_admin_importable : bool;
  firestore_importable : bool;
  apps_initialized : bool;
  FIREBASE_SERVICE_ACCOUNT_KEY : option string;
  Certificate_of_json : string -> Res unit;
  Certificate_of_path : string -> Res unit;
  initialize_app : Res unit;
  client : Res Firestore
}.

(** What the calls to [secrets.token_hex(32)], [uuid.uuid4()] and
    [datetime.utcnow()] return during one operation. *)
Record Env : Type := mkEnv {
  token_hex32 : string;
  uuid4 : string;
  utcnow : datetime
}.

Definition nonempty (o : option string) : option string :=
  match o with
  | Some s => if String.eqb s "" then None else Some s
  | None => None
  end.

(** The credentials step of [__init__], taken when no app is
    initialised yet. *)
Definition credentials_step (h : Host) (service_account_path : option string)
  : Res unit :=
  match nonempty (FIREBASE_SERVICE_ACCOUNT_KEY h) with
  | Some json => cred <~ Certificate_of_json h json ;; initialize_app h
  | None =>
      match nonempty service_account_path with
      | Some path => cred <~ Certificate_of_path h path ;; initialize_app h
      | None => Raise ValueError
      end
  end.

(** The body of the [try] of [__init__], up to [firestore.client()]. *)
Definition connect (h : Host) (service_account_path : option string)
  : Res Firestore :=
  if negb (firebase_admin_importable h) then Raise ImportError
  else if negb (firestore_importable h) then Raise ImportError
  else
    ready <~ (if apps_initialized h then Ok tt
              else credentials_step h service_account_path) ;;
    client h.

(** [FirebaseManager.__init__]: an [ImportError] from anywhere in the
    [try] gives demo mode, any other exception leaves the constructor. *)
Definition FirebaseManager_init (h : Host) (service_account_path : option string)
  : M unit :=
  match connect h service_account_path with
  | Ok st =>
      put_db st ;;
      print [Lit "Firebase Manager initialized successfully."]
  | Raise ImportError =>
      print [Lit "Firebase Manager initialized in DEMO MODE (firebase-admin not found)."] ;;
      (fun w => (Ok tt, mkWorld None (stdout w)))
  | Raise x => raise x
  end.

(** The generated key: [token_hex] returns hexadecimal digits, so the
    key always has an encoding. *)
Definition generate_api_key (env : Env) : string :=
  "nf_live_" ++ token_hex32 env.

(** [hash_api_key] on a key that has an encoding. *)
Definition hash_api_key (key : string) : string := SHA256.hexdigest key.

(** [hash_api_key] on any [str]: the key is encoded first. *)
Definition hash_raw_key (key : pystr) : Res string :=
  bytes <~ str_encode key ;; Ok (hash_api_key bytes).

(** [document(id).set(data)] as the client runs it: the fields are
    converted, then the document is written. *)
Definition firestore_set (id : string) (data : dict) (c : collection)
  : Res collection :=
  encoded <~ encode_fields data ;; Ok (doc_set id data c).

Definition default_endpoints : list string := ["/api/news"; "/api/news/search"].

Definition str_list (l : list string) : value := VList (map VStr l).

(** [allowed_endpoints or [...]] *)
Definition endpoints_or_default (allowed_endpoints : option (list string))
  : value :=
  match allowed_endpoints with
  | Some (e :: l) => str_list (e :: l)
  | _ => str_list default_endpoints
  end.

Definition optional_str_list (o : option (list string)) : value :=
  match o with
  | Some l => str_list l
  | None => VNone
  end.

Definition create_api_key (env : Env)
    (user_id user_email name description : string)
    (expires_in_days rate_limit : Z)
    (allowed_endpoints ip_whitelist : option (list string))
    (start_delay_days : Z) : M (ApiKey.t * string) :=
  let raw_key := generate_api_key env in
  let key_hash := hash_api_key raw_key in
  let now := utcnow env in
  start_date <- lift (add_days now start_delay_days) ;;
  expires_at <- lift (add_days start_date expires_in_days) ;;
  let api_key :=
    ApiKey.mk (VStr (uuid4 env)) (VStr key_hash) (VStr user_id)
      (VStr user_email) (VStr name) (VStr description)
      (VStr (isoformat now ++ "Z"))
      (VStr (isoformat start_date ++ "Z"))
      (VStr (isoformat expires_at ++ "Z"))
      (VBool true) (VInt 0) (VInt rate_limit)
      (endpoints_or_default allowed_endpoints)
      VNone (optional_str_list ip_whitelist) VNone in
  d <- get_db ;;
  match d with
  | Some st =>
      keys <- lift (firestore_set (uuid4 env) (ApiKey.to_dict api_key)
                      (apiKeys st)) ;;
      put_db (mkFirestore keys (usageLogs st)) ;;
      print [Lit "Created API key in Firestore: "; Val (ApiKey.name api_key);
             Lit " (ID: "; Val (ApiKey.id api_key); Lit ")"]
  | None =>
      print [Lit "DEMO: Created API key: "; Val (ApiKey.name api_key);
             Lit " (ID: "; Val (ApiKey.id api_key); Lit ")"]
  end ;;
  ret (api_key, raw_key).

(** The renaming of stored field names applied to every key of a
    document before the [ApiKey] constructor receives them as keyword
    arguments. *)
Definition remap (k : string) : string :=
  replace "Whitelist" "_whitelist"
    (replace "Endpoints" "_endpoints"
       (replace "Limit" "_limit"
          (replace "Count" "_count"
             (replace "is_" "is_"
                (replace "At" "_at" k))))).

(** [v.replace(old, new)]: only a [str] has the method. *)
Definition str_replace (v : value) (old new : string) : Res string :=
  match v with
  | VStr s => Ok (replace old new s)
  | _ => Raise AttributeError
  end.

(** The body of the [for key_doc in keys_ref] loop of
    [validate_api_key]. *)
Definition validate_doc (now : datetime) (key_doc : string * dict)
  : M (option (option ApiKey.t)) :=
  let api_key_data := snd key_doc in
  if truthy (VDict api_key_data) then
    api_key <- lift (ApiKey.init (dict_map_keys remap api_key_data)) ;;
    if negb (truthy (ApiKey.is_active api_key)) then
      print [Lit "API key is revoked"] ;;
      ret (Some None)
    else
      start_date <- lift (s <~ str_replace (ApiKey.start_date api_key) "Z" "" ;;
                          fromisoformat s) ;;
      if dt_lt now start_date then
        print [Lit "API key not yet active"] ;;
        ret (Some None)
      else
        expires_at <- lift (s <~ str_replace (ApiKey.expires_at api_key) "Z" "" ;;
                            fromisoformat s) ;;
        if dt_lt expires_at now then
          print [Lit "API key expired"] ;;
          ret (Some None)
        else
          print [Lit "API key valid: "; Val (ApiKey.name api_key)] ;;
          ret (Some (Some api_key))
  else ret None.

Definition validate_api_key (env : Env) (raw_key : pystr)
  : M (option ApiKey.t) :=
  key_hash <- lift (hash_raw_key raw_key) ;;
  d <- get_db ;;
  match d with
  | None => ret None
  | Some st =>
      let now := utcnow env in
      let keys_ref := firstn 1 (where_eq "keyHash" key_hash (apiKeys st)) in
      r <- for_each keys_ref (validate_doc now) ;;
      match r with
      | Some result => ret result
      | None =>
          print [Lit "API key not found"] ;;
          ret None
      end
  end.

Definition revoke_api_key (key_id : string) : M bool :=
  d <- get_db ;;
  match d with
  | None => ret false
  | Some st =>
      if doc_exists key_id (apiKeys st) then
        keys <- lift (doc_update key_id [("isActive", VBool false)] (apiKeys st)) ;;
        put_db (mkFirestore keys (usageLogs st)) ;;
        print [Lit "Revoked API key: "; Val (VStr key_id)] ;;
        ret true
      else ret false
  end.

Definition delete_api_key (key_id : string) : M bool :=
  d <- get_db ;;
  match d with
  | None => ret false
  | Some st =>
      if doc_exists key_id (apiKeys st) then
        put_db (mkFirestore (doc_delete key_id (apiKeys st)) (usageLogs st)) ;;
        print [Lit "Deleted API key: "; Val (VStr key_id)] ;;
        ret true
      else ret false
  end.

Definition get_user_api_keys (user_id : string) : M (list ApiKey.t) :=
  d <- get_db ;;
  match d with
  | None => ret []
  | Some st =>
      let keys_ref := where_eq "userId" user_id (apiKeys st) in
      lift (map_res (fun key_doc => ApiKey.init (dict_map_keys remap (snd key_doc)))
                    keys_ref)
  end.

(** The function [update_in_transaction] nested in [log_usage], run by
    the transaction: one read, then two writes whose fields are converted
    when they are added and that are applied together at commit, or not
    at all. *)
Definition update_in_transaction (st : Firestore)
    (key_id log_id : string) (log_data : dict) : Res Firestore :=
  let snapshot := doc_get key_id (apiKeys st) in
  count <~ snapshot_get snapshot "requestCount" ;;
  new_count <~ py_add1 count ;;
  stamp <~ dict_getitem log_data "timestamp" ;;
  updated <~ encode_fields [("requestCount", new_count); ("lastUsedAt", stamp)] ;;
  logged <~ encode_fields log_data ;;
  keys <~ doc_update key_id
            [("requestCount", new_count); ("lastUsedAt", stamp)] (apiKeys st) ;;
  Ok (mkFirestore keys (doc_set log_id log_data (usageLogs st))).

(** [log_usage]: the decorator [@firestore.transactional] is evaluated
    when the nested function is defined, before the store is touched. *)
Definition log_usage (env : Env)
    (api_key_id endpoint method : string) (status_code response_time : Z)
    (ip_address user_agent : string) (query_params : option dict)
  : M (option UsageLog.t) :=
  d <- get_db ;;
  match d with
  | None => ret None
  | Some st =>
      let log :=
        UsageLog.mk (uuid4 env) api_key_id endpoint method status_code
          response_time (isoformat (utcnow env) ++ "Z") ip_address user_agent
          query_params in
      lift (load_global "firestore") ;;
      st' <- lift (update_in_transaction st api_key_id (UsageLog.id log)
                     (UsageLog.to_dict log)) ;;
      put_db st' ;;
      ret (Some log)
  end.

(** Transactions on one key committed one after the other, each with
    its own log entry: what any number of calls amounts to once the store
    has serialised them. *)
Fixpoint run_transactions (st : Firestore) (key_id : string)
    (entries : list (string * dict)) : Res Firestore :=
  match entries with
  | [] => Ok st
  | (log_id, log_data) :: rest =>
      st' <~ update_in_transaction st key_id log_id log_data ;;
      run_transactions st' key_id rest
  end.

Definition check_rate_limit (api_key : ApiKey.t) : Res bool :=
  py_lt (ApiKey.request_count api_key) (ApiKey.rate_limit api_key).

(** [sum(1 for l in logs if 200 <= l.status_code < 300)] *)
Fixpoint count_success (logs : list dict) : Res Z :=
  match logs with
  | [] => Ok 0
  | l :: logs' =>
      code <~ dict_getattr l "status_code" ;;
      lo <~ py_le (VInt 200) code ;;
      hi <~ (if lo then py_lt code (VInt 300) else Ok false) ;;
      n <~ count_success logs' ;;
      Ok ((if hi then 1 else 0) + n)
  end.

(** [sum(l.response_time for l in logs)] *)
Fixpoint sum_response_time (logs : list dict) : Res Q :=
  match logs with
  | [] => Ok (inject_Z 0)
  | l :: logs' =>
      t <~ dict_getattr l "response_time" ;;
      x <~ py_num t ;;
      rest <~ sum_response_time logs' ;;
      Ok (Qplus x rest)
  end.

Definition get_usage_stats (api_key_id : string) : M dict :=
  d <- get_db ;;
  match d with
  | None => ret []
  | Some st =>
      let logs := map snd (where_eq "apiKeyId" api_key_id (usageLogs st)) in
      match logs with
      | [] =>
          ret [("totalRequests", VInt 0); ("avgResponseTime", VInt 0);
               ("successRate", VInt 0)]
      | _ :: _ =>
          let total := Z.of_nat (List.length logs) in
          success <- lift (count_success logs) ;;
          time <- lift (sum_response_time logs) ;;
          let avg_time := Qdiv time (inject_Z total) in
          ret [("totalRequests", VInt total);
               ("avgResponseTime", VFloat (round2 avg_time));
               ("successRate",
                VFloat (round2 (Qmult (Qdiv (inject_Z success) (inject_Z total))
                                      (inject_Z 100))));
               ("errorCount", VInt (total - success))]
      end
  end.

(** The [usage_stats] action of [main], for a given [--key-id]. *)
Definition main_usage_stats (key_id : string) : M unit :=
  stats <- get_usage_stats key_id ;;
  print [Lit (newline ++ "Usage Statistics for "); Val (VStr key_id); Lit ":"] ;;
  print [Lit "----------------------------------------"] ;;
  total <- lift (dict_getitem stats "totalRequests") ;;
  print [Lit "  Total Requests: "; Val total] ;;
  avg <- lift (dict_getitem stats "avgResponseTime") ;;
  print [Lit "  Avg Response Time: "; Val avg; Lit "ms"] ;;
  rate <- lift (dict_getitem stats "successRate") ;;
  print [Lit "  Success Rate: "; Val rate; Lit "%"] ;;
  errors <- lift (dict_getitem stats "errorCount") ;;
  print [Lit "  Error Count: "; Val errors].

(** The [revoke_key] action of [main], for a given [--key-id]. *)
Definition main_revoke_key (key_id : string) : M unit :=
  revoked <- revoke_api_key key_id ;;
  if revoked then print [Lit "✅ API key revoked: "; Val (VStr key_id)]
  else print [Lit "❌ API key not found: "; Val (VStr key_id)].


(* ================================================================== *)
(** ** The command line *)
(* ================================================================== *)

Module Args.

(** The five values [--action] accepts. *)
Inductive Action : Type :=
| create_key | validate_key | revoke_key | list_keys | usage_stats.

(** What [parse_args] returns: an option not given is [None]; [name],
    [expires] and [rate_limit] have defaults. *)
Record t : Type := mk {
  action : Action;
  user_id : option string;
  email : option string;
  api_key : option string;
  key_id : option string;
  name : string;
  expires : Z;
  rate_limit : Z
}.

End Args.

Fixpoint str_repeat (s : string) (n : nat) : string :=
  match n with
  | O => EmptyString
  | S k => s ++ str_repeat s k
  end.

(** The [validate_key] action, for a given [--api-key]. *)
Definition main_validate_key (env : Env) (api_key : string) : M unit :=
  result <- validate_api_key env api_key ;;
  match result with
  | Some key =>
      print [Lit (newline ++ "✅ Valid API Key")] ;;
      print [Lit "   Name: "; Val (ApiKey.name key)] ;;
      print [Lit "   User: "; Val (ApiKey.user_email key)] ;;
      print [Lit "   Requests: "; Val (ApiKey.request_count key); Lit "/";
             Val (ApiKey.rate_limit key)]
  | None => print [Lit (newline ++ "❌ Invalid API Key")]
  end.

(** The lines printed for one key by the [list_keys] action. *)
Definition print_key (key : ApiKey.t) : M unit :=
  let status :=
    if truthy (ApiKey.is_active key) then "✅ Active" else "❌ Revoked" in
  print [Lit "  "; Val (ApiKey.name key)] ;;
  print [Lit "    ID: "; Val (ApiKey.id key)] ;;
  print [Lit "    Status: "; Lit status] ;;
  print [Lit "    Requests: "; Val (ApiKey.request_count key); Lit "/";
         Val (ApiKey.rate_limit key)] ;;
  print [Lit "    Expires: "; Val (ApiKey.expires_at key)] ;;
  print [].

Fixpoint for_all {A : Type} (l : list A) (body : A -> M unit) : M unit :=
  match l with
  | [] => ret tt
  | x :: l' => body x ;; for_all l' body
  end.

(** The [list_keys] action, for a given [--user-id]. *)
Definition main_list_keys (user_id : string) : M unit :=
  keys <- get_user_api_keys user_id ;;
  print [Lit (newline ++ "API Keys for user "); Val (VStr user_id); Lit ":"] ;;
  print [Lit (str_repeat "-" 60)] ;;
  match keys with
  | [] => print [Lit "No API keys found"]
  | _ :: _ => for_all keys print_key
  end.

(** The [create_key] action, for given [--user-id] and [--email]. *)
Definition main_create_key (env : Env) (user_id email : string) (args : Args.t)
  : M unit :=
  created <- create_api_key env user_id email (Args.name args) ""
               (Args.expires args) (Args.rate_limit args) None None 0 ;;
  let api_key := fst created in
  let raw_key := snd created in
  print [Lit (newline ++ str_repeat "=" 60)] ;;
  print [Lit "API KEY CREATED SUCCESSFULLY"] ;;
  print [Lit (str_repeat "=" 60)] ;;
  print [Lit "Key ID: "; Val (ApiKey.id api_key)] ;;
  print [Lit "Name: "; Val (ApiKey.name api_key)] ;;
  print [Lit "Expires: "; Val (ApiKey.expires_at api_key)] ;;
  print [Lit "Rate Limit: "; Val (ApiKey.rate_limit api_key); Lit "/day"] ;;
  print [Lit (newline ++ "⚠️  SAVE THIS KEY - IT WILL NOT BE SHOWN AGAIN:")] ;;
  print [Lit newline; Val (VStr raw_key); Lit newline] ;;
  print [Lit (str_repeat "=" 60)].

(** [main], after [parse_args]: the manager is built without a service
    account path, then the action runs.  [env] is what the random source
    and the clock return during that one action. *)
Definition main (h : Host) (env : Env) (args : Args.t) : M unit :=
  FirebaseManager_init h None ;;
  match Args.action args with
  | Args.create_key =>
      match nonempty (Args.user_id args), nonempty (Args.email args) with
      | Some user_id, Some email => main_create_key env user_id email args
      | _, _ => print [Lit "Error: --user-id and --email required for create_key"]
      end
  | Args.validate_key =>
      match nonempty (Args.api_key args) with
      | Some api_key => main_validate_key env api_key
      | None => print [Lit "Error: --api-key required for validate_key"]
      end
  | Args.revoke_key =>
      match nonempty (Args.key_id args) with
      | Some key_id => main_revoke_key key_id
      | None => print [Lit "Error: --key-id required for revoke_key"]
      end
  | Args.list_keys =>
      match nonempty (Args.user_id args) with
      | Some user_id => main_list_keys user_id
      | None => print [Lit "Error: --user-id required for list_keys"]
      end
  | Args.usage_stats =>
      match nonempty (Args.key_id args) with
      | Some key_id => main_usage_stats key_id
      | None => print [Lit "Error: --key-id required for usage_stats"]
      end
  end.

(* ================================================================== *)
(** ** Properties used in the statements below *)
(* ================================================================== *)

Fixpoint string_forallb (p : ascii -> bool) (s : string) : bool :=
  match s with
  | EmptyString => true
  | String c s' => p c && string_forallb p s'
  end.


(** Document ids are unique in a collection of the store. *)
Definition unique_ids (c : collection) : Prop := NoDup (map fst c).

(** The usage log the manager's database holds. *)
Definition stored_logs (w : World) : option collection :=
  match db w with
  | Some st => Some (usageLogs st)
  | None => None
  end.

(** The time of day of a datetime. *)
Definition time_of_day (t : datetime) : list Z :=
  [hour t; minute t; second t; microsecond t].

(* ================================================================== *)
(** ** Scenarios *)
(* ================================================================== *)

Definition key_id1 : string := "11111111-1111-4111-8111-111111111111".
Definition key_id2 : string := "22222222-2222-4222-8222-222222222222".
Definition log_id (n : string) : string :=
  "aaaaaaaa-aaaa-4aaa-8aaa-aaaaaaaaaaa" ++ n.

Definition secret1 : string :=
  "abababababababababababababababababababababababababababababababab".

(** Midnight of 1 January 2024, and one year later. *)
Definition t2024 : datetime := mkDatetime 2024 1 1 0 0 0 0.
Definition t2025 : datetime := mkDatetime 2025 1 1 0 0 0 0.

Definition env1 : Env := mkEnv secret1 key_id1 t2024.
Definition env2 : Env := mkEnv secret1 key_id2 t2024.
Definition env_log (n : string) (t : datetime) : Env := mkEnv secret1 (log_id n) t.

(** A connected manager over an empty database. *)
Definition live0 : World := mkWorld (Some (mkFirestore [] [])) [].

(** [issue(owner="u1", validityDays=30, startDelayDays=0, rateLimit=2)] *)
Definition issue_u1 : M (ApiKey.t * string) :=
  create_api_key env1 "u1" "u1@example.com" "My API Key" "" 30 2 None None 0.

Definition world_issued : World := snd (issue_u1 live0).
Definition world_revoked : World := snd (revoke_api_key key_id1 world_issued).

Definition usage (id : string) (code : Z) : string * dict :=
  (log_id id,
   UsageLog.to_dict
     (UsageLog.mk (log_id id) key_id1 "/api/news" "GET" code 12
                  "2024-01-01T00:00:00Z" "127.0.0.1" "curl/8.0" None)).

(** Three [record] calls one after the other, whatever each one does. *)
Definition record_thrice (w : World) : list (Res (option UsageLog.t)) * World :=
  let call n w :=
    log_usage (env_log n t2024) key_id1 "/api/news" "GET" 200 12
              "127.0.0.1" "curl/8.0" None w in
  let '(r1, w1) := call "1" w in
  let '(r2, w2) := call "2" w1 in
  let '(r3, w3) := call "3" w2 in
  ([r1; r2; r3], w3).

Definition stored_field (w : World) (id field : string) : option value :=
  match db w with
  | Some st =>
      match doc_get id (apiKeys st) with
      | Some d => dict_get field d
      | None => None
      end
  | None => None
  end.

(** Whether the record [id] exists in the manager's database. *)
Definition record_exists (w : World) (id : string) : bool :=
  match db w with
  | Some st => doc_exists id (apiKeys st)
  | None => false
  end.

(** The database after that issue, and the document it stored. *)
Definition store_issued : Firestore :=
  match db world_issued with
  | Some st => st
  | None => mkFirestore [] []
  end.

Definition doc_issued : dict :=
  match doc_get key_id1 (apiKeys store_issued) with
  | Some d => d
  | None => []
  end.

(** A database whose log holds status codes 200, 404, 201 and 500 for
    the key issued above. *)
Definition world_four_logs : World :=
  mkWorld
    (Some (mkFirestore (apiKeys store_issued)
             [usage "1" 200; usage "2" 404; usage "3" 201; usage "4" 500]))
    [].

(** The key issued above once its counter has reached its limit of 2. *)
Definition world_at_limit : World :=
  mkWorld
    (Some (mkFirestore
             [(key_id1, dict_set "requestCount" (VInt 2) doc_issued)]
             (usageLogs store_issued)))
    [].

(** A document whose field names are the parameter names of [ApiKey]
    (no issue writes such a document): the key of the scenario, active
    or revoked. *)
Definition doc_parameter_names (active : bool) : string * dict :=
  (key_id1,
   [("id", VStr key_id1); ("key_hash", VStr (hash_api_key ("nf_live_" ++ secret1)));
    ("user_id", VStr "u1"); ("user_email", VStr "u1@example.com");
    ("name", VStr "My API Key"); ("description", VStr "");
    ("created_at", VStr "2024-01-01T00:00:00Z");
    ("start_date", VStr "2024-01-01T00:00:00Z");
    ("expires_at", VStr "2024-01-31T00:00:00Z");
    ("is_active", VBool active); ("request_count", VInt 0);
    ("rate_limit", VInt 2);
    ("allowed_endpoints", str_list default_endpoints)]).

(** A second issue whose generator returns the secret of the first. *)
Definition world_issued_twice : World :=
  snd (create_api_key env2 "u2" "u2@example.com" "Other key" "" 30 1000
         None None 0 world_issued).

(** A host on which one of the two imports of [__init__] fails:
    [firebase_admin] itself when [admin] is false, its [firestore] module
    otherwise. *)
Definition demo_host (admin apps : bool) (key : option string)
    (of_json of_path : string -> Res unit) (init_app : Res unit)
    (c : Res Firestore) : Host :=
  mkHost admin false apps key of_json of_path init_app c.

(** The manager built on a host without [firebase_admin]. *)
Definition demo_world : World :=
  snd (FirebaseManager_init
         (demo_host false false None (fun _ => Ok tt) (fun _ => Ok tt)
            (Ok tt) (Ok store_issued))
         None (mkWorld None [])).

(* ================================================================== *)
(** ** The calendar, for the statements on dates *)
(* ================================================================== *)

(** The month and day that [ord2ymd] derives from the day [n] of a year
    (0 is 1 January) and that year's leap flag: its last step, on its
    own. *)
Definition month_day (leapyear : bool) (n : Z) : Z * Z :=
  let m := Z.shiftr (n + 50) 5 in
  let preceding :=
    nth (Z.to_nat m) DAYS_BEFORE_MONTH 0
    + (if (2 <? m) && leapyear then 1 else 0) in
  if n <? preceding then
    let m' := m - 1 in
    let preceding' :=
      preceding - (days_in_month 1 m'
                   + (if (m' =? 2) && leapyear then 1 else 0)) in
    (m', n - preceding' + 1)
  else (m, n - preceding + 1).

(** A year with the given leap flag. *)
Definition sample_year (leapyear : bool) : Z := if leapyear then 4 else 1.

(** The check made for each day [n] of a year: [month_day] gives a date
    of the calendar whose day of the year is [n]. *)
Definition month_day_ok (leapyear : bool) (n : Z) : bool :=
  let '(m, d) := month_day leapyear n in
  (1 <=? m) && (m <=? 12) && (1 <=? d)
  && (d <=? days_in_month (sample_year leapyear) m)
  && (days_before_month (sample_year leapyear) m + d =? n + 1).

Fixpoint days_ok (leapyear : bool) (count : nat) (n : Z) : bool :=
  match count with
  | O => true
  | S k => month_day_ok leapyear n && days_ok leapyear k (n + 1)
  end.

(** A date of the calendar, in years 1 to 9999. *)
Definition valid_date (y m d : Z) : bool :=
  (1 <=? y) && (y <=? 9999) && (1 <=? m) && (m <=? 12)
  && (1 <=? d) && (d <=? days_in_month y m).

(** A stored date read the way [validate_api_key] reads [start_date] and
    [expires_at]: the ["Z"] removed, then [fromisoformat]. *)
Definition read_date (v : value) : Res datetime :=
  s <~ str_replace v "Z" "" ;; fromisoformat s.

(** The record returned by the issue of the scenario. *)
Definition key_issued : ApiKey.t :=
  match fst (issue_u1 live0) with
  | Ok (k, _) => k
  | Raise _ =>
      ApiKey.mk VNone VNone VNone VNone VNone VNone VNone VNone VNone VNone
                VNone VNone VNone VNone VNone VNone
  end.

(* ================================================================== *)
(** ** Test vectors for the library models *)
(* ================================================================== *)

Example sha256_abc :
  SHA256.hexdigest "abc"
  = "ba7816bf8f01cfea414140de5dae2223b00361a396177a9cb410ff61f20015ad".
Proof. vm_compute. reflexivity. Qed.

Example sha256_constants :
  firstn 2 SHA256.K = [0x428a2f98; 0x71374491]
  /\ nth 63 SHA256.K 0 = 0xc67178f2
  /\ firstn 2 SHA256.H0 = [0x6a09e667; 0xbb67ae85]
  /\ List.length SHA256.K = 64%nat.
Proof. vm_compute. repeat split. Qed.

Example sha256_empty :
  SHA256.hexdigest ""
  = "e3b0c44298fc1c149afbf4c8996fb92427ae41e4649b934ca495991b7852b855".
Proof. vm_compute. reflexivity. Qed.

Example replace_examples :
  replace "aa" "b" "aaa" = "ba"
  /\ replace "" "-" "abc" = "-a-b-c-"
  /\ replace "Z" "" "2024-01-31T00:00:00Z" = "2024-01-31T00:00:00".
Proof. vm_compute. repeat split. Qed.

Example datetime_examples :
  isoformat (mkDatetime 2024 2 28 23 59 59 5) = "2024-02-28T23:59:59.000005"
  /\ toordinal (mkDatetime 2024 2 28 23 59 59 5) = 738944
  /\ add_days (mkDatetime 2024 2 28 23 59 59 5) 2
     = Ok (mkDatetime 2024 3 1 23 59 59 5)
  /\ add_days (mkDatetime 2024 2 28 23 59 59 5) 3000000 = Raise OverflowError
  /\ add_days (mkDatetime 2024 2 28 23 59 59 5) 1000000000 = Raise OverflowError
  /\ fromisoformat "2024-03-01T23:59:59.000005"
     = Ok (mkDatetime 2024 3 1 23 59 59 5)
  /\ fromisoformat "2024-01-01T00:00:00" = Ok (mkDatetime 2024 1 1 0 0 0 0)
  /\ ord2ymd 3652059 = (9999, 12, 31)
  /\ ord2ymd 146097 = (400, 12, 31)
  /\ ord2ymd 730179 = (2000, 2, 29)
  /\ ord2ymd 1069838 = (2930, 2, 12).
Proof. vm_compute. repeat split. Qed.

(** The integers a document field holds are those of 64 bits. *)
Example encode_value_examples :
  encode_value (VInt (2 ^ 63 - 1)) = Ok tt
  /\ encode_value (VInt (2 ^ 63)) = Raise ValueError
  /\ encode_value (VInt (- 2 ^ 63)) = Ok tt
  /\ encode_value (VInt (- 2 ^ 63 - 1)) = Raise ValueError
  /\ encode_value (VList [VStr "a"; VDict [("n", VInt (2 ^ 64))]])
     = Raise ValueError
  /\ encode_value (VDict [("f", VBuiltin "get")]) = Raise TypeError
  /\ str_encode (Utf8 "nf_live_00") = Ok "nf_live_00"
  /\ str_encode Unencodable = Raise UnicodeEncodeError.
Proof. vm_compute. repeat split. Qed.

(** What the renaming does to each stored field name: only six of the
    sixteen come out as parameters of [ApiKey]. *)
Example remap_stored_names :
  map remap (map fst (ApiKey.to_dict
     (ApiKey.mk VNone VNone VNone VNone VNone VNone VNone VNone VNone VNone
                VNone VNone VNone VNone VNone VNone)))
  = ["id"; "keyHash"; "userId"; "userEmail"; "name"; "description";
     "created_at"; "startDate"; "expires_at"; "isActive"; "request_count";
     "rate_limit"; "allowed_endpoints"; "lastUsed_at"; "ip_whitelist";
     "metadata"].
Proof. vm_compute. reflexivity. Qed.

(* ================================================================== *)
(** ** Dictionaries and collections *)
(* ================================================================== *)

Lemma dict_get_set_same (k : string) (v : value) (d : dict) :
  dict_get k (dict_set k v d) = Some v.
Proof.
  induction d as [|[k' v'] d IH]; simpl.
  - rewrite String.eqb_refl. reflexivity.
  - destruct (String.eqb k k') eqn:E; simpl; rewrite E; auto.
Qed.

Lemma dict_get_set_other (k k' : string) (v : value) (d : dict) :
  k <> k' -> dict_get k (dict_set k' v d) = dict_get k d.
Proof.
  intros Hne. induction d as [|[k0 v0] d IH]; simpl.
  - destruct (String.eqb_spec k k'); congruence.
  - destruct (String.eqb_spec k' k0) as [->|Hk]; simpl.
    + destruct (String.eqb_spec k k0); congruence.
    + rewrite IH. reflexivity.
Qed.

Lemma dict_has_set (k k' : string) (v : value) (d : dict) :
  dict_has k (dict_set k' v d) = (String.eqb k k' || dict_has k d)%bool.
Proof.
  unfold dict_has. destruct (String.eqb_spec k k') as [->|Hne].
  - rewrite dict_get_set_same. reflexivity.
  - rewrite dict_get_set_other by assumption. reflexivity.
Qed.

(** A key of the document survives the comprehension under its new name. *)
Lemma dict_map_keys_has (f : string -> string) (k : string) (d : dict) :
  dict_has k d = true -> dict_has (f k) (dict_map_keys f d) = true.
Proof.
  unfold dict_map_keys.
  assert (G : forall acc,
             dict_has (f k) acc = true \/ dict_has k d = true ->
             dict_has (f k)
               (fold_left (fun a kv => dict_set (f (fst kv)) (snd kv) a) d acc)
             = true).
  { induction d as [|[k0 v0] d IH]; intros acc [H|H]; simpl; auto.
    - discriminate H.
    - apply IH. left. rewrite dict_has_set, H. apply orb_true_r.
    - apply IH. unfold dict_has in H. simpl in H.
      destruct (String.eqb_spec k k0) as [->|Hne].
      + left. rewrite dict_has_set, String.eqb_refl. reflexivity.
      + right. exact H. }
  intros H. apply G. right. exact H.
Qed.

Lemma dict_has_In (k : string) (d : dict) :
  dict_has k d = true -> exists v, In (k, v) d.
Proof.
  unfold dict_has. induction d as [|[k0 v0] d IH]; simpl; [discriminate|].
  destruct (String.eqb_spec k k0) as [->|Hne]; intros H.
  - exists v0. left. reflexivity.
  - destruct (IH H) as [v Hv]. exists v. right. exact Hv.
Qed.

Lemma doc_get_set_same (id : string) (data : dict) (c : collection) :
  doc_get id (doc_set id data c) = Some data.
Proof.
  induction c as [|[i d] c IH]; simpl.
  - rewrite String.eqb_refl. reflexivity.
  - destruct (String.eqb id i) eqn:E; simpl; rewrite E; auto.
Qed.

Lemma doc_get_set_other (id id' : string) (data : dict) (c : collection) :
  id <> id' -> doc_get id (doc_set id' data c) = doc_get id c.
Proof.
  intros Hne. induction c as [|[i d] c IH]; simpl.
  - destruct (String.eqb_spec id id'); congruence.
  - destruct (String.eqb_spec id' i) as [->|Hk]; simpl.
    + destruct (String.eqb_spec id i); congruence.
    + rewrite IH. reflexivity.
Qed.

(** An update of an existing document succeeds, changes that document
    only, and deletes nothing. *)
Lemma doc_update_existing (id : string) (fields : dict) (c : collection) (d : dict) :
  doc_get id c = Some d ->
  exists c', doc_update id fields c = Ok c'
             /\ doc_get id c' = Some (dict_update fields d)
             /\ forall id', id' <> id -> doc_get id' c' = doc_get id' c.
Proof.
  induction c as [|[i d0] c IH]; simpl; [discriminate|].
  destruct (String.eqb_spec id i) as [->|Hne]; intros H.
  - injection H as ->. eexists. split; [reflexivity|]. split.
    + simpl. rewrite String.eqb_refl. reflexivity.
    + intros id' Hd. simpl. destruct (String.eqb_spec id' i); congruence.
  - destruct (IH H) as (c' & -> & Hget & Hother). simpl.
    eexists. split; [reflexivity|]. split.
    + simpl. destruct (String.eqb_spec id i); congruence.
    + intros id' Hd. simpl. rewrite Hother by assumption. reflexivity.
Qed.

Lemma doc_update_missing (id : string) (fields : dict) (c : collection) :
  doc_get id c = None -> doc_update id fields c = Raise NotFound.
Proof.
  induction c as [|[i d0] c IH]; simpl; [reflexivity|].
  destruct (String.eqb_spec id i); [discriminate|].
  intros H. rewrite (IH H). reflexivity.
Qed.

Lemma where_eq_has_field (field v : string) (c : collection) (doc : string * dict) :
  In doc (where_eq field v c) -> dict_has field (snd doc) = true.
Proof.
  unfold where_eq. rewrite filter_In. intros [_ H].
  unfold field_is in H. unfold dict_has.
  destruct (dict_get field (snd doc)); [reflexivity | discriminate].
Qed.

(* ------------------------------------------------------------------ *)
(** *** What the store accepts *)

Lemma in_int64_spec (z : Z) : in_int64 z = true <-> - 2 ^ 63 <= z < 2 ^ 63.
Proof.
  unfold in_int64. rewrite andb_true_iff, Z.leb_le, Z.ltb_lt. reflexivity.
Qed.

Lemma encode_fields_cons (k : string) (v : value) (d : dict) :
  encode_fields ((k, v) :: d)
  = match encode_value v with
    | Ok _ => encode_fields d
    | Raise e => Raise e
    end.
Proof. reflexivity. Qed.

(** Every field of a document that the store accepts is accepted. *)
Lemma encode_fields_get (d : dict) (k : string) (v : value) :
  encode_fields d = Ok tt -> dict_get k d = Some v -> encode_value v = Ok tt.
Proof.
  induction d as [|[k0 v0] d IH]; [discriminate 2|].
  rewrite encode_fields_cons. cbn [dict_get].
  destruct (encode_value v0) as [[]|] eqn:E0; [|discriminate].
  intros Hd. destruct (String.eqb k k0).
  - intros H. injection H as <-. exact E0.
  - apply IH. exact Hd.
Qed.

Lemma encode_str_list (l : list string) : encode_value (str_list l) = Ok tt.
Proof.
  unfold str_list. induction l as [|s l IH]; [reflexivity|].
  cbn [map encode_value] in *. exact IH.
Qed.

Lemma encode_endpoints_or_default (o : option (list string)) :
  encode_value (endpoints_or_default o) = Ok tt.
Proof. destruct o as [[|e l]|]; apply encode_str_list. Qed.

Lemma encode_optional_str_list (o : option (list string)) :
  encode_value (optional_str_list o) = Ok tt.
Proof. destruct o as [l|]; [apply encode_str_list | reflexivity]. Qed.

(** The record [create_api_key] builds is accepted exactly when its rate
    limit fits 64 bits: every other field is a string, a boolean, [None],
    zero or a list of strings. *)
Lemma encode_issued_record (id key_hash user_id user_email name description
    created_at start_date expires_at : string) (rate_limit : Z)
    (allowed_endpoints ip_whitelist : option (list string)) :
  encode_fields
    (ApiKey.to_dict
       (ApiKey.mk (VStr id) (VStr key_hash) (VStr user_id) (VStr user_email)
          (VStr name) (VStr description) (VStr created_at) (VStr start_date)
          (VStr expires_at) (VBool true) (VInt 0) (VInt rate_limit)
          (endpoints_or_default allowed_endpoints) VNone
          (optional_str_list ip_whitelist) VNone))
  = if in_int64 rate_limit then Ok tt else Raise ValueError.
Proof.
  unfold ApiKey.to_dict.
  cbn [ApiKey.id ApiKey.key_hash ApiKey.user_id ApiKey.user_email ApiKey.name
       ApiKey.description ApiKey.created_at ApiKey.start_date
       ApiKey.expires_at ApiKey.is_active ApiKey.request_count
       ApiKey.rate_limit ApiKey.allowed_endpoints ApiKey.last_used_at
       ApiKey.ip_whitelist ApiKey.metadata].
  do 10 (rewrite encode_fields_cons; cbn [encode_value]).
  rewrite encode_fields_cons. cbn [encode_value].
  change (in_int64 0) with true. cbv iota.
  rewrite encode_fields_cons. cbn [encode_value].
  destruct (in_int64 rate_limit); [|reflexivity].
  rewrite encode_fields_cons, encode_endpoints_or_default.
  rewrite encode_fields_cons. cbn [encode_value].
  rewrite encode_fields_cons, encode_optional_str_list.
  reflexivity.
Qed.

(** The two fields the transaction updates. *)
Lemma encode_counter_fields (n : Z) (stamp : value) :
  encode_value stamp = Ok tt ->
  encode_fields [("requestCount", VInt n); ("lastUsedAt", stamp)]
  = if in_int64 n then Ok tt else Raise ValueError.
Proof.
  intros H. rewrite encode_fields_cons. cbn [encode_value].
  destruct (in_int64 n); [|reflexivity].
  rewrite encode_fields_cons, H. reflexivity.
Qed.

(* ================================================================== *)
(** ** Validation *)
(* ================================================================== *)

Lemma ApiKey_init_unexpected (kw : dict) (k : string) :
  dict_has k kw = true ->
  existsb (String.eqb k) ApiKey.parameters = false ->
  ApiKey.init kw = Raise TypeError.
Proof.
  intros Hk Hp. unfold ApiKey.init.
  destruct (forallb _ kw) eqn:E; [|reflexivity].
  destruct (dict_has_In _ _ Hk) as [v Hv].
  rewrite forallb_forall in E. specialize (E _ Hv). cbn [fst] in E. congruence.
Qed.

(** A document that has a [keyHash] field never becomes an [ApiKey]: the
    renaming leaves that name as it is, and the constructor refuses it. *)
Lemma init_of_stored_doc_raises (d : dict) :
  dict_has "keyHash" d = true ->
  ApiKey.init (dict_map_keys remap d) = Raise TypeError.
Proof.
  intros H. apply ApiKey_init_unexpected with (k := remap "keyHash").
  - apply dict_map_keys_has. exact H.
  - reflexivity.
Qed.

Lemma validate_doc_raises (now : datetime) (doc : string * dict) (w : World) :
  dict_has "keyHash" (snd doc) = true ->
  validate_doc now doc w = (Raise TypeError, w).
Proof.
  intros H. unfold validate_doc.
  destruct (snd doc) as [|kv d] eqn:E; [discriminate H|].
  cbn [truthy]. unfold bind, lift.
  rewrite init_of_stored_doc_raises by exact H. reflexivity.
Qed.

(** On a connected manager [validate_api_key] has two outcomes only: no
    document carries the digest and it returns [None] after printing
    "API key not found", or one does and it raises [TypeError] before
    any of its checks. *)
Lemma validate_api_key_live (env : Env) (raw_key : string)
    (st : Firestore) (out : list line) :
  validate_api_key env raw_key (mkWorld (Some st) out)
  = match where_eq "keyHash" (hash_api_key raw_key) (apiKeys st) with
    | [] => (Ok None, mkWorld (Some st) (out ++ [[Lit "API key not found"]]))
    | _ :: _ => (Raise TypeError, mkWorld (Some st) out)
    end.
Proof.
  unfold validate_api_key, bind, get_db, lift, hash_raw_key, str_encode.
  cbn [Res_bind db].
  destruct (where_eq "keyHash" (hash_api_key raw_key) (apiKeys st))
    as [|doc rest] eqn:E.
  - reflexivity.
  - cbn [firstn for_each]. unfold bind.
    rewrite validate_doc_raises; [reflexivity|].
    apply where_eq_has_field with (v := hash_api_key raw_key) (c := apiKeys st).
    rewrite E. left. reflexivity.
Qed.

(** A successful issue on a connected manager stores a document that the
    digest query finds, so validating the returned secret raises. *)
Lemma where_eq_doc_set (field v id : string) (data : dict) (c : collection) :
  field_is field v data = true ->
  where_eq field v (doc_set id data c) <> [].
Proof.
  intros H. unfold where_eq.
  induction c as [|[i d] c IH]; simpl.
  - cbn [snd]. rewrite H. discriminate.
  - destruct (String.eqb id i); simpl.
    + rewrite H. discriminate.
    + destruct (field_is field v d); [discriminate | exact IH].
Qed.

Lemma validate_after_create (env env' : Env)
    (user_id user_email name description : string)
    (expires_in_days rate_limit : Z)
    (allowed_endpoints ip_whitelist : option (list string))
    (start_delay_days : Z) (st : Firestore) (out : list line)
    (k : ApiKey.t) (raw : string) (w' : World) :
  create_api_key env user_id user_email name description expires_in_days
    rate_limit allowed_endpoints ip_whitelist start_delay_days
    (mkWorld (Some st) out) = (Ok (k, raw), w') ->
  validate_api_key env' raw w' = (Raise TypeError, w').
Proof.
  unfold create_api_key, bind, lift, get_db, put_db, print, ret. cbn [db stdout].
  destruct (add_days (utcnow env) start_delay_days) as [s|]; [|discriminate].
  destruct (add_days s expires_in_days) as [e|]; [|discriminate].
  unfold firestore_set. destruct (encode_fields _); [|discriminate].
  cbn [Res_bind].
  intros H. injection H as Hk Hraw Hw. subst raw w'.
  rewrite validate_api_key_live. cbn [apiKeys].
  destruct (where_eq _ _ _) eqn:E; [|reflexivity].
  exfalso. revert E. apply where_eq_doc_set.
  unfold field_is. cbn [ApiKey.to_dict ApiKey.key_hash].
  generalize (hash_api_key (generate_api_key env)). intros h.
  cbn. rewrite String.eqb_refl. reflexivity.
Qed.

(** The checks as they are written, on a document whose field names are
    already the constructor's parameter names (the store holds none):
    the status test comes first, whatever the dates are. *)
Lemma validate_doc_revoked_first (now : datetime) (doc : string * dict)
    (k : ApiKey.t) (w : World) :
  ApiKey.init (dict_map_keys remap (snd doc)) = Ok k ->
  truthy (ApiKey.is_active k) = false ->
  validate_doc now doc w
  = (Ok (Some None), mkWorld (db w) (stdout w ++ [[Lit "API key is revoked"]])).
Proof.
  intros Hk Ha. unfold validate_doc.
  destruct (snd doc) as [|kv d] eqn:E; [discriminate Hk|].
  cbn [truthy]. unfold bind, lift. rewrite Hk, Ha. reflexivity.
Qed.

(** Past the status test, the two dates are read and compared in turn:
    start first, expiry second, and only then is the record returned. *)
Lemma validate_doc_dates (now : datetime) (doc : string * dict)
    (k : ApiKey.t) (w : World) (start : datetime) :
  ApiKey.init (dict_map_keys remap (snd doc)) = Ok k ->
  truthy (ApiKey.is_active k) = true ->
  (s <~ str_replace (ApiKey.start_date k) "Z" "" ;; fromisoformat s) = Ok start ->
  validate_doc now doc w
  = if dt_lt now start then
      (Ok (Some None),
       mkWorld (db w) (stdout w ++ [[Lit "API key not yet active"]]))
    else
      match (s <~ str_replace (ApiKey.expires_at k) "Z" "" ;; fromisoformat s) with
      | Ok expires =>
          if dt_lt expires now then
            (Ok (Some None), mkWorld (db w) (stdout w ++ [[Lit "API key expired"]]))
          else
            (Ok (Some (Some k)),
             mkWorld (db w)
                     (stdout w ++ [[Lit "API key valid: "; Val (ApiKey.name k)]]))
      | Raise x => (Raise x, w)
      end.
Proof.
  intros Hk Ha Hs. unfold validate_doc.
  destruct (snd doc) as [|kv d] eqn:E; [discriminate Hk|].
  cbn [truthy]. unfold bind at 1. unfold lift at 1. rewrite Hk, Ha. cbn [negb].
  unfold bind at 1. unfold lift at 1. rewrite Hs.
  destruct (dt_lt now start); [reflexivity|].
  unfold bind at 1. unfold lift at 1.
  destruct (s <~ str_replace (ApiKey.expires_at k) "Z" "" ;; fromisoformat s)
    as [expires|x]; [|reflexivity].
  destruct (dt_lt expires now); reflexivity.
Qed.

Example validate_doc_on_parameter_names :
  validate_doc t2025 (doc_parameter_names false) live0
  = (Ok (Some None), mkWorld (db live0) [[Lit "API key is revoked"]])
  /\ validate_doc t2025 (doc_parameter_names true) live0
     = (Ok (Some None), mkWorld (db live0) [[Lit "API key expired"]])
  /\ validate_doc (mkDatetime 2023 12 31 23 59 59 0) (doc_parameter_names true) live0
     = (Ok (Some None), mkWorld (db live0) [[Lit "API key not yet active"]])
  /\ fst (validate_doc t2024 (doc_parameter_names true) live0)
     = Res_bind (ApiKey.init (snd (doc_parameter_names true)))
         (fun k => Ok (Some (Some k))).
Proof. vm_compute. repeat split. Qed.

(** C1: validate applies, in order, the unknown-digest, revoked,
    not-yet-active and expired checks, so that a record both revoked and
    expired is reported as revoked.  On the code this fails: for the key
    issued on 1 January 2024 for 30 days, then revoked, validated one year
    later, the call raises [TypeError] and reports nothing. *)
Theorem validate_revoked_expired_raises :
  stored_field world_revoked key_id1 "isActive" = Some (VBool false)
  /\ stored_field world_revoked key_id1 "expiresAt"
     = Some (VStr "2024-01-31T00:00:00Z")
  /\ validate_api_key (mkEnv secret1 key_id2 t2025) (generate_api_key env1)
       world_revoked
     = (Raise TypeError, world_revoked).
Proof. vm_compute. repeat split. Qed.

(** C5: validating the secret that a successful issue returned, inside
    the validity window and with nothing in between, returns the issued
    record.  On the code this fails: the call raises [TypeError]. *)
Theorem issue_then_validate_raises :
  exists k : ApiKey.t,
    issue_u1 live0 = (Ok (k, generate_api_key env1), world_issued)
    /\ ApiKey.start_date k = VStr "2024-01-01T00:00:00Z"
    /\ ApiKey.expires_at k = VStr "2024-01-31T00:00:00Z"
    /\ utcnow env2 = t2024
    /\ validate_api_key env2 (generate_api_key env1) world_issued
       = (Raise TypeError, world_issued).
Proof. eexists. vm_compute. repeat split. Qed.

(* ================================================================== *)
(** ** Usage accounting *)
(* ================================================================== *)

Lemma firestore_is_unbound : load_global "firestore" = Raise NameError.
Proof. reflexivity. Qed.

(** The transaction body, had it run, on an entry the store accepts and
    a counter that stays within 64 bits: the counter of an existing record
    goes from [c] to [c + 1] whatever its [rateLimit] is, [lastUsedAt]
    takes the entry's timestamp, and the entry is stored, all in the one
    resulting database. *)
Lemma update_in_transaction_commits (st : Firestore) (key_id log_id : string)
    (log_data d : dict) (c : Z) (stamp : value) :
  doc_get key_id (apiKeys st) = Some d ->
  dict_get "requestCount" d = Some (VInt c) ->
  dict_get "timestamp" log_data = Some stamp ->
  in_int64 (c + 1) = true ->
  encode_fields log_data = Ok tt ->
  exists keys d',
    update_in_transaction st key_id log_id log_data
    = Ok (mkFirestore keys (doc_set log_id log_data (usageLogs st)))
    /\ doc_get key_id keys = Some d'
    /\ dict_get "requestCount" d' = Some (VInt (c + 1))
    /\ dict_get "lastUsedAt" d' = Some stamp
    /\ dict_get "rateLimit" d' = dict_get "rateLimit" d.
Proof.
  intros Hd Hc Ht Hr He.
  unfold update_in_transaction, snapshot_get, dict_getitem.
  rewrite Hd, Hc, Ht. cbn [Res_bind py_add1].
  rewrite encode_counter_fields by (eapply encode_fields_get; eassumption).
  rewrite Hr, He. cbn [Res_bind].
  destruct (doc_update_existing key_id
              [("requestCount", VInt (c + 1)); ("lastUsedAt", stamp)]
              _ _ Hd) as (keys & Hu & Hg & _).
  rewrite Hu. cbn [Res_bind]. exists keys. eexists.
  split; [reflexivity|]. split; [exact Hg|].
  unfold dict_update. cbn [fold_left fst snd]. repeat split.
  - rewrite dict_get_set_other by discriminate. apply dict_get_set_same.
  - apply dict_get_set_same.
  - rewrite !dict_get_set_other by discriminate. reflexivity.
Qed.

(** Either the transaction yields a whole new database or it yields
    none: on a missing record nothing is written. *)
Lemma update_in_transaction_missing (st : Firestore) (key_id log_id : string)
    (log_data : dict) :
  doc_get key_id (apiKeys st) = None ->
  update_in_transaction st key_id log_id log_data = Raise TypeError.
Proof.
  intros H. unfold update_in_transaction. rewrite H. reflexivity.
Qed.

Lemma doc_set_new_length (id : string) (data : dict) (c : collection) :
  doc_get id c = None -> List.length (doc_set id data c) = S (List.length c).
Proof.
  induction c as [|[i d] c IH]; simpl; [reflexivity|].
  destruct (String.eqb id i); [discriminate|].
  intros H. simpl. rewrite (IH H). reflexivity.
Qed.

(** [n] transactions on an existing record, each with a log entry the
    store accepts under a new id, take the counter from [c] to [c + n] and
    add [n] entries, as long as [c + n] stays within 64 bits. *)
Lemma run_transactions_counts (key_id : string) (entries : list (string * dict)) :
  forall (st : Firestore) (d : dict) (c : Z),
    doc_get key_id (apiKeys st) = Some d ->
    dict_get "requestCount" d = Some (VInt c) ->
    in_int64 c = true ->
    in_int64 (c + Z.of_nat (List.length entries)) = true ->
    Forall (fun e => dict_has "timestamp" (snd e) = true) entries ->
    Forall (fun e => encode_fields (snd e) = Ok tt) entries ->
    NoDup (map fst entries) ->
    Forall (fun e => doc_get (fst e) (usageLogs st) = None) entries ->
    exists st' d',
      run_transactions st key_id entries = Ok st'
      /\ doc_get key_id (apiKeys st') = Some d'
      /\ dict_get "requestCount" d' = Some (VInt (c + Z.of_nat (List.length entries)))
      /\ List.length (usageLogs st')
         = (List.length (usageLogs st) + List.length entries)%nat.
Proof.
  induction entries as [|[log_id log_data] rest IH];
    intros st d c Hd Hc Hlo Hhi Ht Hen Hn Hf.
  - exists st, d. cbn [run_transactions List.length Z.of_nat].
    rewrite Z.add_0_r, Nat.add_0_r. auto.
  - inversion Ht as [|? ? Ht1 Ht2]; subst.
    inversion Hen as [|? ? He1 He2]; subst.
    inversion Hn as [|? ? Hn1 Hn2]; subst.
    inversion Hf as [|? ? Hf1 Hf2]; subst.
    cbn [fst snd] in *.
    unfold dict_has in Ht1.
    destruct (dict_get "timestamp" log_data) as [stamp|] eqn:Hst; [|discriminate].
    assert (Hone : in_int64 (c + 1) = true).
    { apply in_int64_spec. apply in_int64_spec in Hlo, Hhi.
      cbn [List.length] in Hhi. lia. }
    destruct (update_in_transaction_commits st key_id log_id log_data d c stamp
                Hd Hc Hst Hone He1) as (keys & d1 & Hu & Hg & Hc1 & _).
    destruct (IH (mkFirestore keys (doc_set log_id log_data (usageLogs st)))
                 d1 (c + 1) Hg Hc1 Hone) as (st' & d' & Hr & Hg' & Hc' & Hl);
      [ | exact Ht2 | exact He2 | exact Hn2 | | ].
    + rewrite <- Hhi. f_equal. cbn [List.length]. lia.
    + rewrite Forall_forall in *. intros e He. cbn [usageLogs].
      rewrite doc_get_set_other; [apply Hf2; exact He|].
      intros Heq. apply Hn1. rewrite <- Heq. apply in_map. exact He.
    + exists st', d'. cbn [run_transactions]. rewrite Hu. cbn [Res_bind].
      split; [exact Hr|]. split; [exact Hg'|]. split.
      * rewrite Hc'. f_equal. f_equal. cbn [List.length]. lia.
      * rewrite Hl. cbn [usageLogs List.length].
        rewrite doc_set_new_length by exact Hf1. lia.
Qed.

(** C2: each record call runs one atomic transaction that reads
    [requestCount], writes [requestCount + 1] and [lastUsedAt] and inserts
    one log entry, so that N calls take the counter from c to c + N with N
    new entries.  On the code this fails already for one call: on a
    connected manager [log_usage] raises [NameError] and leaves the
    database as it was, for every credential and every request. *)
Theorem log_usage_raises_NameError :
  forall (env : Env) (api_key_id endpoint method : string)
         (status_code response_time : Z) (ip_address user_agent : string)
         (query_params : option dict) (st : Firestore) (out : list line),
    log_usage env api_key_id endpoint method status_code response_time
      ip_address user_agent query_params (mkWorld (Some st) out)
    = (Raise NameError, mkWorld (Some st) out).
Proof.
  intros. unfold log_usage, bind, get_db, lift. cbn [db].
  rewrite firestore_is_unbound. reflexivity.
Qed.

(** C7: a record call made when [requestCount >= rateLimit] still
    commits and increments the counter, so that the third call on a key
    with limit 2 yields a count of 3.  On the code this fails: on the key
    issued with limit 2, three calls in a row all raise [NameError] and
    the count stays 0; on the same key with its count already at 2, the
    call raises and the count stays 2. *)
Theorem third_record_not_counted :
  stored_field world_issued key_id1 "rateLimit" = Some (VInt 2)
  /\ record_thrice world_issued
     = ([Raise NameError; Raise NameError; Raise NameError], world_issued)
  /\ stored_field world_issued key_id1 "requestCount" = Some (VInt 0)
  /\ stored_field world_at_limit key_id1 "requestCount" = Some (VInt 2)
  /\ log_usage (env_log "3" t2024) key_id1 "/api/news" "GET" 200 12
       "127.0.0.1" "curl/8.0" None world_at_limit
     = (Raise NameError, world_at_limit).
Proof. vm_compute. repeat split. Qed.

(** [check_rate_limit] compares the two fields and nothing else. *)
Lemma check_rate_limit_ints (k : ApiKey.t) (count limit : Z) :
  ApiKey.request_count k = VInt count ->
  ApiKey.rate_limit k = VInt limit ->
  check_rate_limit k = Ok (count <? limit).
Proof.
  intros Hc Hl. unfold check_rate_limit, py_lt. rewrite Hc, Hl.
  cbn [py_num]. f_equal. unfold Qle_bool, inject_Z. cbn [Qnum Qden].
  rewrite !Z.mul_1_r. rewrite Z.ltb_antisym. reflexivity.
Qed.

(* ================================================================== *)
(** ** Statistics *)
(* ================================================================== *)

Lemma count_success_raises (l : dict) (logs : list dict) :
  count_success (l :: logs) = Raise AttributeError.
Proof. reflexivity. Qed.


(** C8: with no log entry for the credential, stats returns all four
    fields at zero, [errorCount] included.  On the code this fails: the
    dictionary returned for an empty log has three entries and no
    [errorCount], and the command-line report, which reads that entry,
    raises [KeyError]. *)
Theorem get_usage_stats_empty_lacks_errorCount :
  forall (key_id : string) (keys : collection) (out : list line),
    let w := mkWorld (Some (mkFirestore keys [])) out in
    exists stats : dict,
      get_usage_stats key_id w = (Ok stats, w)
      /\ map fst stats = ["totalRequests"; "avgResponseTime"; "successRate"]
      /\ dict_get "errorCount" stats = None
      /\ fst (main_usage_stats key_id w) = Raise KeyError.
Proof.
  intros. eexists. split; [reflexivity|]. repeat split.
Qed.

(** C9: on a non-empty log stats counts the entries with
    [200 <= statusCode < 300] as successes and returns the total, the
    error count and the success rate; for codes 200, 404, 201, 500 that is
    4, 2 and 50.0.  On the code this fails: for that log the call raises
    [AttributeError] and returns nothing. *)
Theorem get_usage_stats_four_logs_raises :
  map (fun doc => dict_get "statusCode" (snd doc))
      (match db world_four_logs with Some st => usageLogs st | None => [] end)
  = [Some (VInt 200); Some (VInt 404); Some (VInt 201); Some (VInt 500)]
  /\ get_usage_stats key_id1 world_four_logs
     = (Raise AttributeError, world_four_logs).
Proof. vm_compute. split; reflexivity. Qed.

(* ================================================================== *)
(** ** Issue, revoke *)
(* ================================================================== *)

(** What a call to [create_api_key] does once its two date additions are
    in range: no test on any argument, one write under the fresh id, which
    a connected store refuses when the rate limit does not fit 64 bits. *)
Lemma create_api_key_run (env : Env)
    (user_id user_email name description : string)
    (expires_in_days rate_limit : Z)
    (allowed_endpoints ip_whitelist : option (list string))
    (start_delay_days : Z) (w : World) (s e : datetime) :
  add_days (utcnow env) start_delay_days = Ok s ->
  add_days s expires_in_days = Ok e ->
  let k :=
    ApiKey.mk (VStr (uuid4 env)) (VStr (hash_api_key (generate_api_key env)))
      (VStr user_id) (VStr user_email) (VStr name) (VStr description)
      (VStr (isoformat (utcnow env) ++ "Z")) (VStr (isoformat s ++ "Z"))
      (VStr (isoformat e ++ "Z")) (VBool true) (VInt 0) (VInt rate_limit)
      (endpoints_or_default allowed_endpoints) VNone
      (optional_str_list ip_whitelist) VNone in
  create_api_key env user_id user_email name description expires_in_days
    rate_limit allowed_endpoints ip_whitelist start_delay_days w
  = match db w with
    | Some st =>
        if in_int64 rate_limit then
          (Ok (k, generate_api_key env),
           mkWorld
             (Some (mkFirestore
                      (doc_set (uuid4 env) (ApiKey.to_dict k) (apiKeys st))
                      (usageLogs st)))
             (stdout w ++ [[Lit "Created API key in Firestore: ";
                            Val (VStr name); Lit " (ID: ";
                            Val (VStr (uuid4 env)); Lit ")"]]))
        else (Raise ValueError, w)
    | None =>
        (Ok (k, generate_api_key env),
         mkWorld None
           (stdout w ++ [[Lit "DEMO: Created API key: "; Val (VStr name);
                          Lit " (ID: "; Val (VStr (uuid4 env)); Lit ")"]]))
    end.
Proof.
  intros Hs He k. unfold create_api_key, bind, lift, get_db, firestore_set.
  rewrite Hs, He. destruct w as [[st|] out]; [|reflexivity].
  cbn [db]. rewrite encode_issued_record.
  destruct (in_int64 rate_limit); reflexivity.
Qed.

(** A date addition fails with [OverflowError] only. *)
Lemma add_days_raises (t : datetime) (n : Z) (y : exn) :
  add_days t n = Raise y -> y = OverflowError.
Proof.
  unfold add_days.
  destruct (999999999 <? Z.abs n); [congruence|].
  destruct ((0 <? toordinal t + n) && (toordinal t + n <=? MAXORDINAL))%bool;
    [|congruence].
  destruct (ord2ymd (toordinal t + n)) as [[? ?] ?]. discriminate.
Qed.

(** The only ways [create_api_key] fails are a date out of range and, on
    a connected manager, a rate limit the store refuses. *)
Lemma create_api_key_failures (env : Env)
    (user_id user_email name description : string)
    (expires_in_days rate_limit : Z)
    (allowed_endpoints ip_whitelist : option (list string))
    (start_delay_days : Z) (w : World) (x : exn) :
  fst (create_api_key env user_id user_email name description expires_in_days
         rate_limit allowed_endpoints ip_whitelist start_delay_days w)
  = Raise x ->
  x = OverflowError
  \/ (x = ValueError /\ db w <> None /\ in_int64 rate_limit = false).
Proof.
  destruct (add_days (utcnow env) start_delay_days) as [s|y] eqn:Hs.
  - destruct (add_days s expires_in_days) as [e|y] eqn:He.
    + rewrite (create_api_key_run env user_id user_email name description
                 expires_in_days rate_limit allowed_endpoints ip_whitelist
                 start_delay_days w s e Hs He).
      destruct (db w) as [st|]; [|discriminate].
      destruct (in_int64 rate_limit); [discriminate|].
      cbn [fst]. intros H. injection H as <-. right.
      repeat split. discriminate.
    + unfold create_api_key, bind, lift. rewrite Hs, He.
      cbn [fst]. intros H. injection H as <-. left.
      eapply add_days_raises. exact He.
  - unfold create_api_key, bind, lift. rewrite Hs.
    cbn [fst]. intros H. injection H as <-. left.
    eapply add_days_raises. exact Hs.
Qed.

(** What a call to [create_api_key] that returns has done. *)
Lemma create_api_key_returns (env : Env)
    (user_id user_email name description : string)
    (expires_in_days rate_limit : Z)
    (allowed_endpoints ip_whitelist : option (list string))
    (start_delay_days : Z) (w w' : World) (k : ApiKey.t) (raw : string) :
  create_api_key env user_id user_email name description expires_in_days
    rate_limit allowed_endpoints ip_whitelist start_delay_days w
  = (Ok (k, raw), w') ->
  exists s e,
    add_days (utcnow env) start_delay_days = Ok s
    /\ add_days s expires_in_days = Ok e
    /\ k = ApiKey.mk (VStr (uuid4 env))
             (VStr (hash_api_key (generate_api_key env)))
             (VStr user_id) (VStr user_email) (VStr name) (VStr description)
             (VStr (isoformat (utcnow env) ++ "Z")) (VStr (isoformat s ++ "Z"))
             (VStr (isoformat e ++ "Z")) (VBool true) (VInt 0)
             (VInt rate_limit) (endpoints_or_default allowed_endpoints) VNone
             (optional_str_list ip_whitelist) VNone
    /\ raw = generate_api_key env
    /\ match db w with
       | Some st =>
           in_int64 rate_limit = true
           /\ db w' = Some (mkFirestore
                              (doc_set (uuid4 env) (ApiKey.to_dict k) (apiKeys st))
                              (usageLogs st))
       | None => db w' = None
       end.
Proof.
  intros H.
  destruct (add_days (utcnow env) start_delay_days) as [s|x] eqn:Hs;
    [|unfold create_api_key, bind, lift in H; rewrite Hs in H; discriminate H].
  destruct (add_days s expires_in_days) as [e|x] eqn:He;
    [|unfold create_api_key, bind, lift in H; rewrite Hs, He in H;
      discriminate H].
  pose proof (create_api_key_run env user_id user_email name description
                expires_in_days rate_limit allowed_endpoints ip_whitelist
                start_delay_days w s e Hs He) as Hrun.
  cbv zeta in Hrun. rewrite Hrun in H. exists s, e.
  destruct (db w) as [st|].
  - destruct (in_int64 rate_limit); [|discriminate H].
    injection H as <- <- <-. repeat split; assumption || reflexivity.
  - injection H as <- <- <-. repeat split; assumption || reflexivity.
Qed.

(** C3, as the code has it: [create_api_key] tests neither the validity
    nor the rate limit.  Whenever the start and expiry dates are in range,
    the only limit that makes it fail is one that the connected store
    cannot hold in 64 bits: then the write raises [ValueError] and nothing
    changes.  For every other [expires_in_days] and [rate_limit], zero and
    negative included, and for every limit without a database, it
    succeeds, returns a record with that limit, active, with a zero count,
    expiring [expires_in_days] days after its start, and stores it when a
    database is connected. *)
Theorem create_api_key_no_validation :
  forall (env : Env) (user_id user_email name description : string)
         (expires_in_days rate_limit : Z)
         (allowed_endpoints ip_whitelist : option (list string))
         (start_delay_days : Z) (w : World) (s e : datetime),
    add_days (utcnow env) start_delay_days = Ok s ->
    add_days s expires_in_days = Ok e ->
    let call :=
      create_api_key env user_id user_email name description expires_in_days
        rate_limit allowed_endpoints ip_whitelist start_delay_days w in
    let issued (stored : bool) :=
      exists (k : ApiKey.t) (w' : World),
        call = (Ok (k, generate_api_key env), w')
        /\ ApiKey.rate_limit k = VInt rate_limit
        /\ ApiKey.start_date k = VStr (isoformat s ++ "Z")
        /\ ApiKey.expires_at k = VStr (isoformat e ++ "Z")
        /\ ApiKey.is_active k = VBool true
        /\ ApiKey.request_count k = VInt 0
        /\ if stored
           then exists st', db w' = Some st'
                            /\ doc_get (uuid4 env) (apiKeys st')
                               = Some (ApiKey.to_dict k)
           else db w' = None in
    match db w with
    | Some _ =>
        if in_int64 rate_limit then issued true
        else call = (Raise ValueError, w)
    | None => issued false
    end.
Proof.
  intros env user_id user_email name description expires_in_days rate_limit
         allowed_endpoints ip_whitelist start_delay_days w s e Hs He.
  pose proof (create_api_key_run env user_id user_email name description
                expires_in_days rate_limit allowed_endpoints ip_whitelist
                start_delay_days w s e Hs He) as Hrun.
  cbv zeta in *. destruct (db w) as [st|].
  - destruct (in_int64 rate_limit); [|exact Hrun].
    eexists. eexists. split; [exact Hrun|]. repeat split.
    eexists. split; [reflexivity|]. cbn [apiKeys]. apply doc_get_set_same.
  - eexists. eexists. split; [exact Hrun|]. repeat split.
Qed.

(** An issue with zero validity and a negative limit on a connected
    manager, and one with the limit [2 ^ 63], which the store refuses. *)
Lemma create_api_key_no_validation_witness :
  (exists (k : ApiKey.t) (w' : World),
     create_api_key env1 "u1" "u1@example.com" "My API Key" "" 0 (-1)
       None None 0 live0
     = (Ok (k, generate_api_key env1), w')
     /\ ApiKey.rate_limit k = VInt (-1)
     /\ ApiKey.start_date k = VStr (isoformat t2024 ++ "Z")
     /\ ApiKey.expires_at k = VStr (isoformat t2024 ++ "Z")
     /\ ApiKey.is_active k = VBool true
     /\ ApiKey.request_count k = VInt 0
     /\ exists st', db w' = Some st'
                    /\ doc_get (uuid4 env1) (apiKeys st')
                       = Some (ApiKey.to_dict k))
  /\ create_api_key env1 "u1" "u1@example.com" "My API Key" "" 0 (2 ^ 63)
       None None 0 live0
     = (Raise ValueError, live0).
Proof.
  split.
  - exact (create_api_key_no_validation env1 "u1" "u1@example.com"
             "My API Key" "" 0 (-1) None None 0 live0 t2024 t2024
             eq_refl eq_refl).
  - exact (create_api_key_no_validation env1 "u1" "u1@example.com"
             "My API Key" "" 0 (2 ^ 63) None None 0 live0 t2024 t2024
             eq_refl eq_refl).
Defined.

(** C3 as stated fails: with [validityDays = 0] and [rateLimit = 0] the
    call raises nothing, returns a record, and the database holds that
    record afterwards. *)
Lemma create_api_key_accepts_zero :
  let call :=
    create_api_key env1 "u1" "u1@example.com" "My API Key" "" 0 0
      None None 0 live0 in
  (forall x : exn, fst call <> Raise x)
  /\ (exists k : ApiKey.t, fst call = Ok (k, generate_api_key env1))
  /\ record_exists live0 key_id1 = false
  /\ record_exists (snd call) key_id1 = true
  /\ stored_field (snd call) key_id1 "rateLimit" = Some (VInt 0)
  /\ stored_field (snd call) key_id1 "startDate"
     = Some (VStr "2024-01-01T00:00:00Z")
  /\ stored_field (snd call) key_id1 "expiresAt"
     = Some (VStr "2024-01-01T00:00:00Z").
Proof.
  vm_compute. split; [discriminate|]. split; [eexists; reflexivity|].
  repeat split.
Qed.

(** The digest depends on the key alone. *)
Lemma hash_api_key_deterministic (a b : string) :
  a = b -> hash_api_key a = hash_api_key b.
Proof. intros ->. reflexivity. Qed.

(** C6, as the code has it: the digest is a function of the secret, and
    [create_api_key] neither looks for a stored record with the same digest
    nor generates a second secret.  When a record with the digest of the
    new secret is already stored under another id and the store accepts
    the new record (its rate limit fits 64 bits), the call still succeeds
    with that secret, and afterwards both records are stored with the same
    digest. *)
Theorem create_api_key_no_collision_check :
  forall (env : Env) (user_id user_email name description : string)
         (expires_in_days rate_limit : Z)
         (allowed_endpoints ip_whitelist : option (list string))
         (start_delay_days : Z) (st : Firestore) (out : list line)
         (s e : datetime) (id' : string) (d' : dict),
    add_days (utcnow env) start_delay_days = Ok s ->
    add_days s expires_in_days = Ok e ->
    in_int64 rate_limit = true ->
    String.eqb id' (uuid4 env) = false ->
    doc_get id' (apiKeys st) = Some d' ->
    dict_get "keyHash" d' = Some (VStr (hash_api_key (generate_api_key env))) ->
    (forall raw : string,
        raw = generate_api_key env ->
        hash_api_key raw = hash_api_key (generate_api_key env))
    /\ exists (k : ApiKey.t) (w' : World),
         create_api_key env user_id user_email name description
           expires_in_days rate_limit allowed_endpoints ip_whitelist
           start_delay_days (mkWorld (Some st) out)
         = (Ok (k, generate_api_key env), w')
         /\ ApiKey.key_hash k = VStr (hash_api_key (generate_api_key env))
         /\ stored_field w' id' "keyHash"
            = Some (VStr (hash_api_key (generate_api_key env)))
         /\ stored_field w' (uuid4 env) "keyHash"
            = Some (VStr (hash_api_key (generate_api_key env))).
Proof.
  intros env user_id user_email name description expires_in_days rate_limit
         allowed_endpoints ip_whitelist start_delay_days st out s e id' d'
         Hs He Hr Hid Hd Hh.
  split; [intros raw ->; reflexivity|].
  pose proof (create_api_key_run env user_id user_email name description
                expires_in_days rate_limit allowed_endpoints ip_whitelist
                start_delay_days (mkWorld (Some st) out) s e Hs He) as Hrun.
  cbv zeta in Hrun. cbn [db stdout] in Hrun. rewrite Hr in Hrun.
  eexists. eexists. split; [exact Hrun|]. split; [reflexivity|].
  unfold stored_field. cbn [db apiKeys]. split.
  - rewrite doc_get_set_other.
    + rewrite Hd. exact Hh.
    + intros ->. rewrite String.eqb_refl in Hid. discriminate.
  - rewrite doc_get_set_same. cbn [ApiKey.to_dict ApiKey.key_hash].
    generalize (hash_api_key (generate_api_key env)). intros h. reflexivity.
Qed.

(** The second issue of the scenario: same secret as the first, new id. *)
Lemma create_api_key_no_collision_check_witness :
  (forall raw : string,
      raw = generate_api_key env2 ->
      hash_api_key raw = hash_api_key (generate_api_key env2))
  /\ exists (k : ApiKey.t) (w' : World),
       create_api_key env2 "u2" "u2@example.com" "Other key" "" 30 1000
         None None 0 (mkWorld (Some store_issued) (stdout world_issued))
       = (Ok (k, generate_api_key env2), w')
       /\ ApiKey.key_hash k = VStr (hash_api_key (generate_api_key env2))
       /\ stored_field w' key_id1 "keyHash"
          = Some (VStr (hash_api_key (generate_api_key env2)))
       /\ stored_field w' (uuid4 env2) "keyHash"
          = Some (VStr (hash_api_key (generate_api_key env2))).
Proof.
  apply (create_api_key_no_collision_check env2 "u2" "u2@example.com"
           "Other key" "" 30 1000 None None 0 store_issued
           (stdout world_issued) t2024 (mkDatetime 2024 1 31 0 0 0 0)
           key_id1 doc_issued);
    vm_compute; reflexivity.
Defined.

(** C6 as stated fails: two issues whose generator returns the same
    secret both succeed, return that one secret, and leave two records
    with one digest. *)
Lemma create_api_key_stores_colliding_digest :
  (exists k1, issue_u1 live0 = (Ok (k1, generate_api_key env1), world_issued))
  /\ (exists k2,
        create_api_key env2 "u2" "u2@example.com" "Other key" "" 30 1000
          None None 0 world_issued
        = (Ok (k2, generate_api_key env1), world_issued_twice))
  /\ String.eqb key_id1 key_id2 = false
  /\ record_exists world_issued_twice key_id1 = true
  /\ record_exists world_issued_twice key_id2 = true
  /\ stored_field world_issued_twice key_id1 "keyHash"
     = stored_field world_issued_twice key_id2 "keyHash"
  /\ stored_field world_issued_twice key_id2 "keyHash"
     = Some (VStr (hash_api_key (generate_api_key env1))).
Proof.
  split; [eexists; vm_compute; reflexivity|].
  split; [eexists; vm_compute; reflexivity|].
  vm_compute. repeat split.
Qed.

(* ------------------------------------------------------------------ *)
(** *** Revocation *)

Lemma revoke_api_key_run (key_id : string) (w : World) :
  exists w',
    revoke_api_key key_id w = (Ok (record_exists w key_id), w')
    /\ record_exists w' key_id = record_exists w key_id
    /\ (if record_exists w key_id
        then stored_field w' key_id "isActive" = Some (VBool false)
        else w' = w).
Proof.
  destruct w as [[st|] out]; unfold revoke_api_key, bind, get_db, record_exists;
    cbn [db].
  - unfold doc_exists.
    destruct (doc_get key_id (apiKeys st)) as [d|] eqn:Hd.
    + destruct (doc_update_existing key_id [("isActive", VBool false)] _ _ Hd)
        as (keys & Hu & Hg & _).
      unfold lift, put_db, print, ret. rewrite Hu. cbn [db stdout].
      eexists. split; [reflexivity|]. unfold stored_field. cbn [db apiKeys].
      rewrite Hg. split; [reflexivity|].
      unfold dict_update. cbn [fold_left fst snd]. apply dict_get_set_same.
    + eexists. split; [reflexivity|]. cbn [db]. rewrite Hd. split; reflexivity.
  - eexists. split; [reflexivity|]. split; reflexivity.
Qed.

(** C4, as the code has it: [revoke_api_key] returns true exactly when
    the record exists, active or not, and then sets [isActive] to false;
    it returns false, raising nothing and changing nothing, when the
    record does not exist.  The record still exists afterwards, so a
    second call on the same id returns what the first returned: true then
    true on an existing record. *)
Theorem revoke_api_key_returns_existence :
  forall (key_id : string) (w : World),
    let r := revoke_api_key key_id w in
    fst r = Ok (record_exists w key_id)
    /\ (if record_exists w key_id
        then stored_field (snd r) key_id "isActive" = Some (VBool false)
        else snd r = w)
    /\ fst (revoke_api_key key_id (snd r)) = Ok (record_exists w key_id).
Proof.
  intros key_id w r. subst r.
  destruct (revoke_api_key_run key_id w) as (w' & Hr & He & Ha).
  rewrite Hr. cbn [fst snd]. split; [reflexivity|]. split; [exact Ha|].
  destruct (revoke_api_key_run key_id w') as (w'' & Hr' & _).
  rewrite Hr'. cbn [fst]. rewrite He. reflexivity.
Qed.

(** C4 as stated fails: revoking the issued key twice returns true both
    times, the second time on a record that is already revoked. *)
Lemma revoke_twice_returns_true_twice :
  revoke_api_key key_id1 world_issued
  = (Ok true,
     mkWorld (db world_revoked)
             (stdout world_issued ++ [[Lit "Revoked API key: "; Val (VStr key_id1)]]))
  /\ stored_field world_revoked key_id1 "isActive" = Some (VBool false)
  /\ fst (revoke_api_key key_id1 world_revoked) = Ok true
  /\ fst (revoke_api_key key_id2 world_revoked) = Ok false.
Proof. vm_compute. repeat split. Qed.

(* ================================================================== *)
(** ** Demo mode *)
(* ================================================================== *)

(** C10, as the code has it: when [firebase_admin] or its [firestore]
    module cannot be imported the manager is built with [db = None], and
    then [revoke_api_key] and [delete_api_key] return false,
    [get_user_api_keys] returns the empty list, [get_usage_stats] the
    empty dictionary and [log_usage] returns [None], all without raising
    and without a change.  [validate_api_key] hashes the key before it
    looks at [db]: it returns [None] for every raw key that has a UTF-8
    encoding, and raises [UnicodeEncodeError] for a raw key that has
    none. *)
Theorem demo_mode_degrades :
  forall (admin apps : bool) (key : option string)
         (of_json of_path : string -> Res unit) (init_app : Res unit)
         (c : Res Firestore)
         (service_account_path : option string) (w0 : World)
         (env : Env) (raw_key key_id user_id : string)
         (endpoint method : string) (status_code response_time : Z)
         (ip_address user_agent : string) (query_params : option dict),
    let built :=
      FirebaseManager_init
        (demo_host admin apps key of_json of_path init_app c)
        service_account_path w0 in
    let w := snd built in
    fst built = Ok tt
    /\ db w = None
    /\ validate_api_key env (Utf8 raw_key) w = (Ok None, w)
    /\ validate_api_key env Unencodable w = (Raise UnicodeEncodeError, w)
    /\ revoke_api_key key_id w = (Ok false, w)
    /\ delete_api_key key_id w = (Ok false, w)
    /\ get_user_api_keys user_id w = (Ok [], w)
    /\ get_usage_stats key_id w = (Ok [], w)
    /\ log_usage env key_id endpoint method status_code response_time
         ip_address user_agent query_params w = (Ok None, w).
Proof.
  intros. subst built w. unfold FirebaseManager_init, connect, demo_host.
  cbn [firebase_admin_importable firestore_importable].
  destruct admin; repeat split.
Qed.

(** C10 as stated fails: on a manager built without [firebase_admin],
    [validate_api_key] raises on a raw key that cannot be encoded, where
    the claim has it return [None] for every raw key. *)
Lemma validate_api_key_raises_in_demo_mode :
  db demo_world = None
  /\ stdout demo_world
     = [[Lit "Firebase Manager initialized in DEMO MODE (firebase-admin not found)."]]
  /\ validate_api_key env1 Unencodable demo_world
     = (Raise UnicodeEncodeError, demo_world)
  /\ validate_api_key env1 Unencodable demo_world <> (Ok None, demo_world).
Proof.
  repeat split. discriminate.
Qed.

(* ================================================================== *)
(** ** Deleting and listing keys *)
(* ================================================================== *)

Lemma doc_get_delete_other (id id' : string) (c : collection) :
  id' <> id -> doc_get id' (doc_delete id c) = doc_get id' c.
Proof.
  intros Hne. induction c as [|[i d] c IH]; simpl; [reflexivity|].
  destruct (String.eqb_spec id i) as [->|Hi].
  - destruct (String.eqb_spec id' i); congruence.
  - simpl. rewrite IH. reflexivity.
Qed.

Lemma doc_get_None_notin (id : string) (c : collection) :
  doc_get id c = None <-> ~ In id (map fst c).
Proof.
  induction c as [|[i d] c IH]; simpl.
  - split; auto.
  - destruct (String.eqb_spec id i) as [->|Hi]; split.
    + discriminate.
    + intros H. exfalso. apply H. left. reflexivity.
    + intros H [E|E]; [congruence | apply IH in H; contradiction].
    + intros H. apply IH. intros E. apply H. right. exact E.
Qed.

Lemma doc_get_delete_same (id : string) (c : collection) :
  unique_ids c -> doc_get id (doc_delete id c) = None.
Proof.
  unfold unique_ids. induction c as [|[i d] c IH]; simpl; [reflexivity|].
  intros H. inversion H as [|? ? Hi Hc]; subst.
  destruct (String.eqb_spec id i) as [->|Hne].
  - apply doc_get_None_notin. exact Hi.
  - simpl. destruct (String.eqb_spec id i); [congruence|]. apply IH. exact Hc.
Qed.

Lemma doc_delete_set_fresh (id : string) (data : dict) (c : collection) :
  doc_get id c = None -> doc_delete id (doc_set id data c) = c.
Proof.
  induction c as [|[i d] c IH]; simpl.
  - rewrite String.eqb_refl. reflexivity.
  - destruct (String.eqb id i) eqn:E; [discriminate|].
    intros H. simpl. rewrite E, (IH H). reflexivity.
Qed.

Lemma delete_api_key_run (key_id : string) (w : World) :
  delete_api_key key_id w
  = match db w with
    | Some st =>
        if doc_exists key_id (apiKeys st) then
          (Ok true,
           mkWorld (Some (mkFirestore (doc_delete key_id (apiKeys st)) (usageLogs st)))
                   (stdout w ++ [[Lit "Deleted API key: "; Val (VStr key_id)]]))
        else (Ok false, w)
    | None => (Ok false, w)
    end.
Proof.
  destruct w as [[st|] out]; unfold delete_api_key, bind, get_db; cbn [db];
    [|reflexivity].
  destruct (doc_exists key_id (apiKeys st)); reflexivity.
Qed.

(** X1: [delete_api_key] returns whether the record existed and removes
    nothing else: every other record keeps all its fields and the usage
    log is untouched.  When the record existed one line is printed; when
    it did not (or in demo mode) nothing changes at all. *)
Theorem delete_api_key_removes_only_that_record :
  forall (key_id : string) (w : World),
    let r := delete_api_key key_id w in
    fst r = Ok (record_exists w key_id)
    /\ (forall id' field : string,
           String.eqb id' key_id = false ->
           stored_field (snd r) id' field = stored_field w id' field)
    /\ stored_logs (snd r) = stored_logs w
    /\ (if record_exists w key_id
        then stdout (snd r)
             = (stdout w ++ [[Lit "Deleted API key: "; Val (VStr key_id)]])%list
        else snd r = w).
Proof.
  intros key_id w r. subst r. rewrite delete_api_key_run.
  unfold record_exists, stored_field, stored_logs.
  destruct w as [[st|] out]; cbn [db]; [|repeat split].
  destruct (doc_exists key_id (apiKeys st)); cbn [fst snd db apiKeys usageLogs stdout];
    repeat split.
  intros id' field Hne. rewrite doc_get_delete_other; [reflexivity|].
  intros ->. rewrite String.eqb_refl in Hne. discriminate.
Qed.

(** X2: in a database whose document ids are unique, a deleted record
    is gone: afterwards a second [delete_api_key] and a [revoke_api_key] on
    the same id both return false. *)
Theorem delete_api_key_twice :
  forall (key_id : string) (st : Firestore) (out : list line),
    unique_ids (apiKeys st) ->
    let w' := snd (delete_api_key key_id (mkWorld (Some st) out)) in
    record_exists w' key_id = false
    /\ fst (delete_api_key key_id w') = Ok false
    /\ fst (revoke_api_key key_id w') = Ok false.
Proof.
  intros key_id st out Hu w'.
  assert (E : record_exists w' key_id = false).
  { subst w'. rewrite delete_api_key_run. cbn [db].
    unfold record_exists, doc_exists.
    destruct (doc_get key_id (apiKeys st)) eqn:Hd; cbn [snd db apiKeys].
    - rewrite doc_get_delete_same by exact Hu. reflexivity.
    - rewrite Hd. reflexivity. }
  split; [exact E|]. split.
  - rewrite delete_api_key_run. unfold record_exists in E.
    destruct (db w') as [st'|]; [|reflexivity]. rewrite E. reflexivity.
  - destruct (revoke_api_key_run key_id w') as (w'' & Hr & _).
    rewrite Hr, E. reflexivity.
Qed.

Lemma delete_api_key_twice_witness :
  let w' := snd (delete_api_key key_id1 (mkWorld (Some store_issued) [])) in
  record_exists w' key_id1 = false
  /\ fst (delete_api_key key_id1 w') = Ok false
  /\ fst (revoke_api_key key_id1 w') = Ok false.
Proof.
  apply (delete_api_key_twice key_id1 store_issued []).
  vm_compute. repeat constructor. intros [].
Defined.

(** X3: when an issue on a connected manager returns, under an id the
    database did not hold, the record is stored under that id, and
    deleting that id gives back the database as it was before the
    issue. *)
Theorem create_then_delete_restores :
  forall (env : Env) (user_id user_email name description : string)
         (expires_in_days rate_limit : Z)
         (allowed_endpoints ip_whitelist : option (list string))
         (start_delay_days : Z) (st : Firestore) (out : list line)
         (k : ApiKey.t) (raw : string) (w1 : World),
    create_api_key env user_id user_email name description expires_in_days
      rate_limit allowed_endpoints ip_whitelist start_delay_days
      (mkWorld (Some st) out) = (Ok (k, raw), w1) ->
    doc_get (uuid4 env) (apiKeys st) = None ->
    record_exists w1 (uuid4 env) = true
    /\ exists w2 : World,
         delete_api_key (uuid4 env) w1 = (Ok true, w2)
         /\ db w2 = Some st.
Proof.
  intros env user_id user_email name description expires_in_days rate_limit
         allowed_endpoints ip_whitelist start_delay_days st out k raw w1 Hc Hf.
  destruct (create_api_key_returns _ _ _ _ _ _ _ _ _ _ _ _ _ _ Hc)
    as (s & e & _ & _ & _ & _ & Hw).
  cbn [db] in Hw. destruct Hw as [_ Hw].
  assert (Hx : record_exists w1 (uuid4 env) = true).
  { unfold record_exists, doc_exists. rewrite Hw. cbn [apiKeys].
    rewrite doc_get_set_same. reflexivity. }
  split; [exact Hx|].
  rewrite delete_api_key_run. unfold record_exists in Hx. rewrite Hw in *.
  rewrite Hx. eexists. split; [reflexivity|]. cbn [db apiKeys usageLogs].
  rewrite doc_delete_set_fresh by exact Hf. destruct st; reflexivity.
Qed.

(** The first issue of the scenario, on the empty database, undone. *)
Lemma create_then_delete_restores_witness :
  record_exists world_issued key_id1 = true
  /\ exists w2 : World,
       delete_api_key key_id1 world_issued = (Ok true, w2)
       /\ db w2 = Some (mkFirestore [] []).
Proof.
  apply (create_then_delete_restores env1 "u1" "u1@example.com" "My API Key"
           "" 30 2 None None 0 (mkFirestore [] []) [] key_issued
           (generate_api_key env1) world_issued);
    vm_compute; reflexivity.
Defined.

Lemma get_user_api_keys_run (user_id : string) (w : World) :
  get_user_api_keys user_id w
  = match db w with
    | Some st =>
        match where_eq "userId" user_id (apiKeys st) with
        | [] => (Ok [], w)
        | _ :: _ => (Raise TypeError, w)
        end
    | None => (Ok [], w)
    end.
Proof.
  destruct w as [[st|] out]; unfold get_user_api_keys, bind, get_db, lift;
    cbn [db]; [|reflexivity].
  destruct (where_eq "userId" user_id (apiKeys st)) as [|doc rest] eqn:E;
    [reflexivity|].
  cbn [map_res].
  rewrite (ApiKey_init_unexpected _ (remap "userId")); [reflexivity| |reflexivity].
  apply dict_map_keys_has.
  apply where_eq_has_field with (v := user_id) (c := apiKeys st).
  rewrite E. left. reflexivity.
Qed.

(** X4: [get_user_api_keys] never returns a key and never changes
    anything: its result is the empty list or a [TypeError], and on a
    connected manager it is the [TypeError] exactly when some stored
    record has the user's id. *)
Theorem get_user_api_keys_never_lists :
  forall (user_id : string) (w : World),
    let r := get_user_api_keys user_id w in
    snd r = w
    /\ (fst r = Ok [] \/ fst r = Raise TypeError)
    /\ match db w with
       | Some st =>
           fst r = Raise TypeError
           <-> exists doc, In doc (apiKeys st)
                           /\ dict_get "userId" (snd doc) = Some (VStr user_id)
       | None => fst r = Ok []
       end.
Proof.
  intros user_id w r. subst r. rewrite get_user_api_keys_run.
  destruct w as [[st|] out]; cbn [db]; [|auto].
  destruct (where_eq "userId" user_id (apiKeys st)) as [|doc rest] eqn:E;
    cbn [fst snd].
  - split; [reflexivity|]. split; [auto|]. split; [discriminate|].
    intros (doc & Hin & Hf). exfalso.
    assert (H : In doc (where_eq "userId" user_id (apiKeys st))).
    { unfold where_eq. apply filter_In. split; [exact Hin|].
      unfold field_is. rewrite Hf. apply String.eqb_refl. }
    rewrite E in H. exact H.
  - split; [reflexivity|]. split; [auto|]. split; [|reflexivity].
    intros _. exists doc.
    assert (H : In doc (where_eq "userId" user_id (apiKeys st)))
      by (rewrite E; left; reflexivity).
    unfold where_eq in H. apply filter_In in H. destruct H as [Hin Hf].
    split; [exact Hin|]. unfold field_is in Hf.
    destruct (dict_get "userId" (snd doc)) as [[]|]; try discriminate.
    apply String.eqb_eq in Hf. subst. reflexivity.
Qed.

(** X5: a document that carries any of the stored field names [keyHash],
    [userId], [userEmail], [startDate], [isActive] or [lastUsedAt] is
    refused by the [ApiKey] constructor after the renaming of its keys:
    what [to_dict] writes cannot be read back. *)
Theorem stored_names_never_decode :
  forall d : dict,
    (dict_has "keyHash" d || dict_has "userId" d || dict_has "userEmail" d
     || dict_has "startDate" d || dict_has "isActive" d
     || dict_has "lastUsedAt" d)%bool = true ->
    ApiKey.init (dict_map_keys remap d) = Raise TypeError.
Proof.
  intros d H.
  repeat (apply orb_true_iff in H; destruct H as [H|H]);
    match type of H with
    | dict_has ?stored d = true =>
        apply (ApiKey_init_unexpected (dict_map_keys remap d) (remap stored));
          [apply dict_map_keys_has; exact H | reflexivity]
    end.
Qed.

Lemma stored_names_never_decode_witness :
  ApiKey.init (dict_map_keys remap doc_issued) = Raise TypeError.
Proof.
  apply (stored_names_never_decode doc_issued). vm_compute. reflexivity.
Defined.

(** X6: [validate_api_key] never changes the database and never
    returns a record: in every state its result is [None] or a
    [TypeError] for a raw key that has a UTF-8 encoding, and a
    [UnicodeEncodeError] for one that has none. *)
Theorem validate_api_key_read_only :
  forall (env : Env) (raw_key : pystr) (w : World),
    let r := validate_api_key env raw_key w in
    db (snd r) = db w
    /\ match raw_key with
       | Utf8 _ => fst r = Ok None \/ fst r = Raise TypeError
       | Unencodable => fst r = Raise UnicodeEncodeError
       end.
Proof.
  intros env [bytes|] [[st|] out] r; subst r.
  - rewrite validate_api_key_live.
    destruct (where_eq _ _ _); cbn [fst snd db]; auto.
  - cbn. auto.
  - split; reflexivity.
  - split; reflexivity.
Qed.

(* ================================================================== *)
(** ** What revocation and the transaction leave alone *)
(* ================================================================== *)

Lemma dict_update_one (k : string) (v : value) (d : dict) :
  dict_update [(k, v)] d = dict_set k v d.
Proof. reflexivity. Qed.

(** X7: [revoke_api_key] changes nothing but the [isActive] field of
    the record it is given: every other field of that record, every other
    record and the usage log are as before. *)
Theorem revoke_api_key_changes_only_isActive :
  forall (key_id : string) (w : World),
    let r := revoke_api_key key_id w in
    (forall id' field : string,
        (String.eqb id' key_id && String.eqb field "isActive")%bool = false ->
        stored_field (snd r) id' field = stored_field w id' field)
    /\ stored_logs (snd r) = stored_logs w.
Proof.
  intros key_id [[st|] out] r; subst r;
    unfold revoke_api_key, bind, get_db, stored_field, stored_logs; cbn [db];
    [|split; reflexivity].
  unfold doc_exists.
  destruct (doc_get key_id (apiKeys st)) as [d|] eqn:Hd; [|split; reflexivity].
  destruct (doc_update_existing key_id [("isActive", VBool false)] _ _ Hd)
    as (keys & Hu & Hg & Ho).
  unfold lift, put_db, print, ret. rewrite Hu.
  cbn [fst snd db stdout apiKeys usageLogs]. split; [|reflexivity].
  intros id' field Hne.
  destruct (String.eqb_spec id' key_id) as [->|Hid].
  - rewrite Hg, Hd, dict_update_one. cbn [andb] in Hne.
    apply dict_get_set_other. intros ->. discriminate Hne.
  - rewrite Ho by exact Hid. reflexivity.
Qed.

(** X8: the body of the function nested in [log_usage], which
    [log_usage] itself never gets to run (its decorator raises first),
    taken as one transaction on an existing record whose [requestCount] is
    the integer c, with c + 1 within 64 bits and an entry that the store
    accepts: the count becomes c + 1, [lastUsedAt] becomes the entry's
    timestamp, the entry is stored under its id, and every other field,
    every other record and every other log entry is unchanged. *)
Theorem transaction_commit_frame :
  forall (st : Firestore) (key_id log_id : string) (log_data d : dict)
         (c : Z) (stamp : value),
    doc_get key_id (apiKeys st) = Some d ->
    dict_get "requestCount" d = Some (VInt c) ->
    dict_get "timestamp" log_data = Some stamp ->
    in_int64 (c + 1) = true ->
    encode_fields log_data = Ok tt ->
    exists (st' : Firestore) (d' : dict),
      update_in_transaction st key_id log_id log_data = Ok st'
      /\ doc_get key_id (apiKeys st') = Some d'
      /\ dict_get "requestCount" d' = Some (VInt (c + 1))
      /\ dict_get "lastUsedAt" d' = Some stamp
      /\ (forall field : string,
             (String.eqb field "requestCount" || String.eqb field "lastUsedAt")%bool
             = false ->
             dict_get field d' = dict_get field d)
      /\ (forall id' : string,
             String.eqb id' key_id = false ->
             doc_get id' (apiKeys st') = doc_get id' (apiKeys st))
      /\ doc_get log_id (usageLogs st') = Some log_data
      /\ (forall id' : string,
             String.eqb id' log_id = false ->
             doc_get id' (usageLogs st') = doc_get id' (usageLogs st)).
Proof.
  intros st key_id log_id log_data d c stamp Hd Hc Ht Hr He.
  unfold update_in_transaction, snapshot_get, dict_getitem.
  rewrite Hd, Hc, Ht. cbn [Res_bind py_add1].
  rewrite encode_counter_fields by (eapply encode_fields_get; eassumption).
  rewrite Hr, He. cbn [Res_bind].
  destruct (doc_update_existing key_id
              [("requestCount", VInt (c + 1)); ("lastUsedAt", stamp)]
              _ _ Hd) as (keys & Hu & Hg & Ho).
  rewrite Hu. cbn [Res_bind]. eexists. eexists.
  split; [reflexivity|]. cbn [apiKeys usageLogs]. split; [exact Hg|].
  unfold dict_update. cbn [fold_left fst snd].
  split; [rewrite dict_get_set_other by discriminate; apply dict_get_set_same|].
  split; [apply dict_get_set_same|].
  split.
  { intros field Hf. apply orb_false_iff in Hf. destruct Hf as [H1 H2].
    rewrite !dict_get_set_other; [reflexivity| |];
      intros ->; discriminate. }
  split.
  { intros id' Hne. apply Ho. intros ->. rewrite String.eqb_refl in Hne.
    discriminate. }
  split; [apply doc_get_set_same|].
  intros id' Hne. apply doc_get_set_other. intros ->.
  rewrite String.eqb_refl in Hne. discriminate.
Qed.

Lemma transaction_commit_frame_witness :
  exists (st' : Firestore) (d' : dict),
    update_in_transaction store_issued key_id1 (log_id "1") (snd (usage "1" 200))
    = Ok st'
    /\ doc_get key_id1 (apiKeys st') = Some d'
    /\ dict_get "requestCount" d' = Some (VInt (0 + 1))
    /\ dict_get "lastUsedAt" d' = Some (VStr "2024-01-01T00:00:00Z")
    /\ (forall field : string,
           (String.eqb field "requestCount" || String.eqb field "lastUsedAt")%bool
           = false ->
           dict_get field d' = dict_get field doc_issued)
    /\ (forall id' : string,
           String.eqb id' key_id1 = false ->
           doc_get id' (apiKeys st') = doc_get id' (apiKeys store_issued))
    /\ doc_get (log_id "1") (usageLogs st') = Some (snd (usage "1" 200))
    /\ (forall id' : string,
           String.eqb id' (log_id "1") = false ->
           doc_get id' (usageLogs st') = doc_get id' (usageLogs store_issued)).
Proof.
  apply (transaction_commit_frame store_issued key_id1 (log_id "1")
           (snd (usage "1" 200)) doc_issued 0 (VStr "2024-01-01T00:00:00Z"));
    vm_compute; reflexivity.
Defined.

(** X9: the body of the function nested in [log_usage], taken as one
    transaction, fails when there is no number to increment and when the
    incremented number does not fit: [TypeError] when the record does not
    exist or its [requestCount] is no number, [KeyError] when the record
    has no [requestCount], and, for an integer count c and a timestamped
    entry that the store accepts, [ValueError] when c + 1 is outside 64
    bits; otherwise it commits. *)
Theorem transaction_fails_without_counter :
  forall (st : Firestore) (key_id log_id : string) (log_data : dict),
    let run := update_in_transaction st key_id log_id log_data in
    match doc_get key_id (apiKeys st) with
    | None => run = Raise TypeError
    | Some d =>
        match dict_get "requestCount" d with
        | None => run = Raise KeyError
        | Some (VNone | VStr _ | VList _ | VDict _ | VBuiltin _) =>
            run = Raise TypeError
        | Some (VInt c) =>
            dict_has "timestamp" log_data = true ->
            encode_fields log_data = Ok tt ->
            if in_int64 (c + 1) then exists st', run = Ok st'
            else run = Raise ValueError
        | Some (VBool _ | VFloat _) =>
            dict_has "timestamp" log_data = true ->
            encode_fields log_data = Ok tt ->
            exists st', run = Ok st'
        end
    end.
Proof.
  intros st key_id log_id log_data run. subst run.
  unfold update_in_transaction, snapshot_get.
  destruct (doc_get key_id (apiKeys st)) as [d|] eqn:Hd; [|reflexivity].
  destruct (dict_get "requestCount" d) as [v|]; [|reflexivity].
  destruct v; try reflexivity; cbn [Res_bind py_add1];
    unfold dict_has, dict_getitem; intros Ht He;
    destruct (dict_get "timestamp" log_data) as [stamp|] eqn:Hs;
    try discriminate; cbn [Res_bind];
    pose proof (encode_fields_get log_data "timestamp" stamp He Hs) as Hst.
  - rewrite encode_counter_fields by exact Hst.
    replace (in_int64 ((if b then 1 else 0) + 1)) with true
      by (destruct b; reflexivity).
    rewrite He. cbn [Res_bind].
    match goal with
    | |- context [doc_update key_id ?f (apiKeys st)] =>
        destruct (doc_update_existing key_id f _ _ Hd) as (keys & Hu & _);
          rewrite Hu; eexists; reflexivity
    end.
  - rewrite encode_counter_fields by exact Hst.
    destruct (in_int64 (z + 1)); [|reflexivity].
    rewrite He. cbn [Res_bind].
    destruct (doc_update_existing key_id
                [("requestCount", VInt (z + 1)); ("lastUsedAt", stamp)]
                _ _ Hd) as (keys & Hu & _).
    rewrite Hu. eexists. reflexivity.
  - rewrite encode_fields_cons. cbn [encode_value].
    rewrite encode_fields_cons, Hst.
    change (encode_fields []) with (Ok tt : Res unit).
    rewrite He. cbn [Res_bind].
    match goal with
    | |- context [doc_update key_id ?f (apiKeys st)] =>
        destruct (doc_update_existing key_id f _ _ Hd) as (keys & Hu & _);
          rewrite Hu; eexists; reflexivity
    end.
Qed.

(** X11: the record that an issue returns is within its rate limit
    exactly when [rate_limit] is positive: [check_rate_limit] on it
    returns [0 < rate_limit]. *)
Theorem fresh_key_rate_limit :
  forall (env : Env) (user_id user_email name description : string)
         (expires_in_days rate_limit : Z)
         (allowed_endpoints ip_whitelist : option (list string))
         (start_delay_days : Z) (w w' : World) (k : ApiKey.t) (raw : string),
    create_api_key env user_id user_email name description expires_in_days
      rate_limit allowed_endpoints ip_whitelist start_delay_days w
    = (Ok (k, raw), w') ->
    check_rate_limit k = Ok (0 <? rate_limit).
Proof.
  intros env user_id user_email name description expires_in_days rate_limit
         allowed_endpoints ip_whitelist start_delay_days w w' k raw Hc.
  destruct (create_api_key_returns _ _ _ _ _ _ _ _ _ _ _ _ _ _ Hc)
    as (s & e & _ & _ & -> & _).
  apply check_rate_limit_ints; reflexivity.
Qed.

(** The key of the scenario, issued with the limit 2. *)
Lemma fresh_key_rate_limit_witness :
  check_rate_limit key_issued = Ok (0 <? 2).
Proof.
  apply (fresh_key_rate_limit env1 "u1" "u1@example.com" "My API Key" "" 30 2
           None None 0 live0 world_issued key_issued (generate_api_key env1)).
  vm_compute. reflexivity.
Defined.

(** [__init__], by what its [try] block comes to. *)
Lemma FirebaseManager_init_of_connect (h : Host) (path : option string)
    (w : World) :
  FirebaseManager_init h path w
  = match connect h path with
    | Ok st =>
        (Ok tt,
         mkWorld (Some st)
           (stdout w ++ [[Lit "Firebase Manager initialized successfully."]]))
    | Raise ImportError =>
        (Ok tt,
         mkWorld None
           (stdout w
            ++ [[Lit "Firebase Manager initialized in DEMO MODE (firebase-admin not found)."]]))
    | Raise x => (Raise x, w)
    end.
Proof.
  unfold FirebaseManager_init. destruct (connect h path) as [st|[]]; reflexivity.
Qed.

(** The database of a connected manager is the one [firestore.client()]
    returned. *)
Lemma connect_Ok (h : Host) (path : option string) (st : Firestore) :
  connect h path = Ok st -> client h = Ok st.
Proof.
  unfold connect.
  destruct (firebase_admin_importable h); [|discriminate].
  destruct (firestore_importable h); [|discriminate]. cbn [negb].
  destruct (if apps_initialized h then Ok tt else credentials_step h path)
    as [[]|x]; [|discriminate].
  cbn [Res_bind]. auto.
Qed.

(** The three ways [__init__] ends. *)
Lemma FirebaseManager_init_cases (h : Host) (path : option string) (w : World) :
  (exists x, x <> ImportError /\ FirebaseManager_init h path w = (Raise x, w))
  \/ (exists st,
        client h = Ok st
        /\ FirebaseManager_init h path w
           = (Ok tt,
              mkWorld (Some st)
                (stdout w ++ [[Lit "Firebase Manager initialized successfully."]])))
  \/ FirebaseManager_init h path w
     = (Ok tt,
        mkWorld None
          (stdout w
           ++ [[Lit "Firebase Manager initialized in DEMO MODE (firebase-admin not found)."]])).
Proof.
  rewrite FirebaseManager_init_of_connect.
  destruct (connect h path) as [st|x] eqn:Hc.
  - right. left. exists st. split; [|reflexivity].
    apply connect_Ok with (path := path). exact Hc.
  - destruct x; try (left; eexists; split; [|reflexivity]; discriminate).
    right. right. reflexivity.
Qed.

(** X12: [__init__] ends in one of three ways: it raises an exception
    other than [ImportError], having changed and printed nothing; it
    keeps the database that [firestore.client()] returned and prints its
    success line; or it prints the demo line and leaves [db] at [None].
    It ends in demo mode whenever one of the two imports fails.  With both
    imports available it raises [ValueError] when no app is initialised
    and neither the environment variable nor the path holds a non-empty
    string, and when an app is initialised already its outcome is that of
    [firestore.client()]: connected when the client is returned, raising
    what the client raises otherwise. *)
Theorem init_connects_or_raises :
  forall (h : Host) (service_account_path : option string) (w : World),
    let r := FirebaseManager_init h service_account_path w in
    let connected (st : Firestore) :=
      (Ok tt,
       mkWorld (Some st)
         (stdout w ++ [[Lit "Firebase Manager initialized successfully."]])) in
    let demo :=
      (Ok tt,
       mkWorld None
         (stdout w
          ++ [[Lit "Firebase Manager initialized in DEMO MODE (firebase-admin not found)."]])) in
    ((exists x : exn, x <> ImportError /\ r = (Raise x, w))
     \/ (exists st : Firestore, client h = Ok st /\ r = connected st)
     \/ r = demo)
    /\ (firebase_admin_importable h && firestore_importable h = false ->
        r = demo)
    /\ (firebase_admin_importable h && firestore_importable h = true ->
        (apps_initialized h = false ->
         nonempty (FIREBASE_SERVICE_ACCOUNT_KEY h) = None ->
         nonempty service_account_path = None ->
         r = (Raise ValueError, w))
        /\ (apps_initialized h = true ->
            r = match client h with
                | Ok st => connected st
                | Raise ImportError => demo
                | Raise x => (Raise x, w)
                end)).
Proof.
  intros h path w r connected demo. subst r connected demo.
  split; [apply FirebaseManager_init_cases|].
  rewrite FirebaseManager_init_of_connect. unfold connect, credentials_step.
  destruct (firebase_admin_importable h), (firestore_importable h);
    cbn [andb negb]; (split; [try discriminate; reflexivity|]);
    try discriminate.
  intros _. split.
  - intros -> -> ->. reflexivity.
  - intros ->. cbn [Res_bind]. reflexivity.
Qed.



(* ================================================================== *)
(** ** Transactions one after the other *)
(* ================================================================== *)

Lemma update_in_transaction_logs (st st' : Firestore) (key_id log_id : string)
    (log_data : dict) :
  update_in_transaction st key_id log_id log_data = Ok st' ->
  usageLogs st' = doc_set log_id log_data (usageLogs st).
Proof.
  unfold update_in_transaction.
  destruct (snapshot_get _ _) as [c|]; [|discriminate]. cbn [Res_bind].
  destruct (py_add1 c) as [n|]; [|discriminate]. cbn [Res_bind].
  destruct (dict_getitem log_data "timestamp") as [ts|]; [|discriminate].
  cbn [Res_bind].
  destruct (encode_fields [_; _]) as [[]|]; [|discriminate]. cbn [Res_bind].
  destruct (encode_fields log_data) as [[]|]; [|discriminate]. cbn [Res_bind].
  destruct (doc_update _ _ _) as [keys|]; [|discriminate].
  cbn [Res_bind]. intros H. injection H as <-. reflexivity.
Qed.

Lemma run_transactions_keeps_log (key_id : string) (entries : list (string * dict)) :
  forall (st st' : Firestore) (id : string),
    run_transactions st key_id entries = Ok st' ->
    ~ In id (map fst entries) ->
    doc_get id (usageLogs st') = doc_get id (usageLogs st).
Proof.
  induction entries as [|[log_id log_data] rest IH]; intros st st' id H Hn.
  - injection H as <-. reflexivity.
  - cbn [run_transactions] in H.
    destruct (update_in_transaction st key_id log_id log_data) as [st1|] eqn:Hu;
      [|discriminate H]. cbn [Res_bind] in H.
    rewrite (IH st1 st' id H) by (intros Hi; apply Hn; right; exact Hi).
    rewrite (update_in_transaction_logs _ _ _ _ _ Hu).
    apply doc_get_set_other. intros ->. apply Hn. left. reflexivity.
Qed.

(** X10: the body of the function nested in [log_usage], committed n
    times one after the other on one existing record whose count c and
    c + n are within 64 bits, each time with a timestamped entry that the
    store accepts, under an id of its own that the log does not hold yet:
    the counter goes from c to c + n, the rate limit stays as it was, n
    entries are added to the log, and every entry is stored as given. *)
Theorem serial_transactions_count :
  forall (key_id : string) (entries : list (string * dict))
         (st : Firestore) (d : dict) (c : Z),
    doc_get key_id (apiKeys st) = Some d ->
    dict_get "requestCount" d = Some (VInt c) ->
    in_int64 c = true ->
    in_int64 (c + Z.of_nat (List.length entries)) = true ->
    Forall (fun e => dict_has "timestamp" (snd e) = true) entries ->
    Forall (fun e => encode_fields (snd e) = Ok tt) entries ->
    NoDup (map fst entries) ->
    Forall (fun e => doc_get (fst e) (usageLogs st) = None) entries ->
    exists (st' : Firestore) (d' : dict),
      run_transactions st key_id entries = Ok st'
      /\ doc_get key_id (apiKeys st') = Some d'
      /\ dict_get "requestCount" d' = Some (VInt (c + Z.of_nat (List.length entries)))
      /\ dict_get "rateLimit" d' = dict_get "rateLimit" d
      /\ List.length (usageLogs st')
         = (List.length (usageLogs st) + List.length entries)%nat
      /\ Forall (fun e => doc_get (fst e) (usageLogs st') = Some (snd e)) entries.
Proof.
  intros key_id entries.
  induction entries as [|[log_id log_data] rest IH];
    intros st d c Hd Hc Hlo Hhi Ht Hen Hn Hf.
  - exists st, d. cbn [run_transactions List.length Z.of_nat].
    rewrite Z.add_0_r, Nat.add_0_r. repeat split; auto.
  - inversion Ht as [|? ? Ht1 Ht2]; subst.
    inversion Hen as [|? ? He1 He2]; subst.
    inversion Hn as [|? ? Hn1 Hn2]; subst.
    inversion Hf as [|? ? Hf1 Hf2]; subst.
    cbn [fst snd] in *.
    unfold dict_has in Ht1.
    destruct (dict_get "timestamp" log_data) as [stamp|] eqn:Hst; [|discriminate].
    assert (Hone : in_int64 (c + 1) = true).
    { apply in_int64_spec. apply in_int64_spec in Hlo, Hhi.
      cbn [List.length] in Hhi. lia. }
    destruct (update_in_transaction_commits st key_id log_id log_data d c stamp
                Hd Hc Hst Hone He1) as (keys & d1 & Hu & Hg & Hc1 & _ & Hr1).
    destruct (IH (mkFirestore keys (doc_set log_id log_data (usageLogs st)))
                 d1 (c + 1) Hg Hc1 Hone)
      as (st' & d' & Hr & Hg' & Hc' & Hrl & Hl & Hall);
      [ | exact Ht2 | exact He2 | exact Hn2 | | ].
    + rewrite <- Hhi. f_equal. cbn [List.length]. lia.
    + rewrite Forall_forall in *. intros e He. cbn [usageLogs].
      rewrite doc_get_set_other; [apply Hf2; exact He|].
      intros Heq. apply Hn1. rewrite <- Heq. apply in_map. exact He.
    + exists st', d'. cbn [run_transactions]. rewrite Hu. cbn [Res_bind].
      split; [exact Hr|]. split; [exact Hg'|]. split.
      { rewrite Hc'. f_equal. f_equal. cbn [List.length]. lia. }
      split; [congruence|]. split.
      { rewrite Hl. cbn [usageLogs List.length].
        rewrite doc_set_new_length by exact Hf1. lia. }
      constructor; [|exact Hall]. cbn [fst snd].
      rewrite (run_transactions_keeps_log _ _ _ _ log_id Hr Hn1).
      cbn [usageLogs]. apply doc_get_set_same.
Qed.

Lemma serial_transactions_count_witness :
  exists (st' : Firestore) (d' : dict),
    run_transactions store_issued key_id1
      [usage "1" 200; usage "2" 404; usage "3" 201] = Ok st'
    /\ doc_get key_id1 (apiKeys st') = Some d'
    /\ dict_get "requestCount" d' = Some (VInt (0 + Z.of_nat 3))
    /\ dict_get "rateLimit" d' = dict_get "rateLimit" doc_issued
    /\ List.length (usageLogs st')
       = (List.length (usageLogs store_issued) + 3)%nat
    /\ Forall (fun e => doc_get (fst e) (usageLogs st') = Some (snd e))
         [usage "1" 200; usage "2" 404; usage "3" 201].
Proof.
  apply (serial_transactions_count key_id1
           [usage "1" 200; usage "2" 404; usage "3" 201] store_issued doc_issued 0).
  - vm_compute. reflexivity.
  - vm_compute. reflexivity.
  - reflexivity.
  - reflexivity.
  - repeat constructor.
  - repeat constructor.
  - cbn. repeat constructor; cbn; intuition discriminate.
  - repeat constructor.
Defined.

(** X23: in the record that an issue returns, a missing or empty list
    of allowed endpoints is replaced by the two default endpoints and a
    non-empty list is kept as given; an empty IP whitelist is kept as the
    empty list and a missing one as [None]. *)
Theorem create_api_key_endpoint_defaults :
  forall (env : Env) (user_id user_email name description : string)
         (expires_in_days rate_limit : Z)
         (allowed_endpoints ip_whitelist : option (list string))
         (start_delay_days : Z) (w w' : World) (k : ApiKey.t) (raw : string),
    create_api_key env user_id user_email name description expires_in_days
      rate_limit allowed_endpoints ip_whitelist start_delay_days w
    = (Ok (k, raw), w') ->
    ApiKey.allowed_endpoints k
    = match allowed_endpoints with
      | Some (p :: l) => VList (map VStr (p :: l))
      | Some [] | None => VList [VStr "/api/news"; VStr "/api/news/search"]
      end
    /\ ApiKey.ip_whitelist k
       = match ip_whitelist with
         | Some l => VList (map VStr l)
         | None => VNone
         end.
Proof.
  intros env user_id user_email name description expires_in_days rate_limit
         allowed_endpoints ip_whitelist start_delay_days w w' k raw Hc.
  destruct (create_api_key_returns _ _ _ _ _ _ _ _ _ _ _ _ _ _ Hc)
    as (s & e & _ & _ & -> & _).
  cbn [ApiKey.allowed_endpoints ApiKey.ip_whitelist]. split.
  - destruct allowed_endpoints as [[|p l]|]; reflexivity.
  - destruct ip_whitelist; reflexivity.
Qed.

(** The key of the scenario, issued without either list. *)
Lemma create_api_key_endpoint_defaults_witness :
  ApiKey.allowed_endpoints key_issued
  = VList [VStr "/api/news"; VStr "/api/news/search"]
  /\ ApiKey.ip_whitelist key_issued = VNone.
Proof.
  apply (create_api_key_endpoint_defaults env1 "u1" "u1@example.com"
           "My API Key" "" 30 2 None None 0 live0 world_issued key_issued
           (generate_api_key env1)).
  vm_compute. reflexivity.
Defined.

(* ================================================================== *)
(** ** The command line *)
(* ================================================================== *)



Lemma main_validate_key_run (env : Env) (api_key : string) (w : World) :
  main_validate_key env api_key w = (Raise TypeError, w)
  \/ main_validate_key env api_key w
     = (Ok tt,
        mkWorld (db w)
          (stdout w ++ [[Lit "API key not found"];
                        [Lit (newline ++ "❌ Invalid API Key")]]))
  \/ (db w = None
      /\ main_validate_key env api_key w
         = (Ok tt,
            mkWorld None (stdout w ++ [[Lit (newline ++ "❌ Invalid API Key")]]))).
Proof.
  destruct w as [[st|] out]; unfold main_validate_key, bind.
  - rewrite validate_api_key_live.
    destruct (where_eq _ _ _).
    + right. left. unfold print. cbn [db stdout].
      rewrite <- app_assoc. reflexivity.
    + left. reflexivity.
  - right. right. split; reflexivity.
Qed.

(** X14: the [validate_key] action with a key never prints the line
    that reports a valid key: it ends on the line that reports an invalid
    key, or it raises. *)
Theorem main_validate_key_never_reports_valid :
  forall (h : Host) (env : Env) (user_id email key_id : option string)
         (c : ascii) (rest name : string) (expires rate_limit : Z) (w : World),
    let args :=
      Args.mk Args.validate_key user_id email (Some (String c rest)) key_id
              name expires rate_limit in
    let r := main h env args w in
    exists lines : list line,
      stdout (snd r) = (stdout w ++ lines)%list
      /\ ~ In [Lit (newline ++ "✅ Valid API Key")] lines
      /\ (fst r = Ok tt
          /\ last lines [] = [Lit (newline ++ "❌ Invalid API Key")]
          \/ exists x : exn, fst r = Raise x).
Proof.
  intros h env user_id email key_id c rest name expires rate_limit w args r.
  subst r args. unfold main, bind.
  cbn [Args.action Args.api_key nonempty String.eqb].
  destruct (FirebaseManager_init_cases h None w)
    as [(x & _ & ->)|[(st & _ & ->) | ->]].
  - cbn [fst snd]. exists []. rewrite app_nil_r. split; [reflexivity|].
    split; [intros []|]. right. eauto.
  - destruct (main_validate_key_run env (String c rest)
                (mkWorld (Some st)
                   (stdout w ++ [[Lit "Firebase Manager initialized successfully."]])))
      as [-> | [-> | [Hd _]]]; [| |discriminate Hd]; cbn [fst snd db stdout].
    + eexists. split; [reflexivity|]. split; [|right; eauto].
      intros [H|[]]. discriminate H.
    + eexists. rewrite <- app_assoc. split; [reflexivity|].
      split; [|left; split; reflexivity].
      cbn [app]. intros [H|[H|[H|[]]]]; vm_compute in H; discriminate H.
  - destruct (main_validate_key_run env (String c rest)
                (mkWorld None
                   (stdout w ++ [[Lit "Firebase Manager initialized in DEMO MODE (firebase-admin not found)."]])))
      as [H | [H | [_ ->]]]; cbn [fst snd db stdout].
    + exfalso. unfold main_validate_key, bind in H. cbn in H. discriminate H.
    + exfalso. unfold main_validate_key, bind in H. cbn in H.
      injection H as H. apply (f_equal (@List.length line)) in H.
      rewrite !length_app in H. cbn in H. lia.
    + eexists. rewrite <- app_assoc. split; [reflexivity|].
      split; [|left; split; reflexivity].
      cbn [app]. intros [H|[H|[]]]; vm_compute in H; discriminate H.
Qed.

Lemma main_list_keys_run (user_id : string) (w : World) :
  main_list_keys user_id w = (Raise TypeError, w)
  \/ main_list_keys user_id w
     = (Ok tt,
        mkWorld (db w)
          (stdout w
           ++ [[Lit (newline ++ "API Keys for user "); Val (VStr user_id); Lit ":"];
               [Lit (str_repeat "-" 60)];
               [Lit "No API keys found"]])).
Proof.
  unfold main_list_keys, bind. rewrite get_user_api_keys_run.
  destruct w as [[st|] out]; cbn [db].
  - destruct (where_eq _ _ _); [right|left; reflexivity].
    unfold print. cbn [db stdout]. rewrite <- !app_assoc. reflexivity.
  - right. unfold print. cbn [db stdout]. rewrite <- !app_assoc. reflexivity.
Qed.

(** X15: the [list_keys] action with a user id never prints a key: it
    ends on the header followed by "No API keys found", or it raises. *)
Theorem main_list_keys_never_prints_a_key :
  forall (h : Host) (env : Env) (email api_key key_id : option string)
         (c : ascii) (rest name : string) (expires rate_limit : Z) (w : World),
    let user_id := String c rest in
    let args :=
      Args.mk Args.list_keys (Some user_id) email api_key key_id
              name expires rate_limit in
    let r := main h env args w in
    (exists x : exn, fst r = Raise x)
    \/ (fst r = Ok tt
        /\ exists lines : list line,
             stdout (snd r)
             = (stdout w ++ lines
                ++ [[Lit (newline ++ "API Keys for user "); Val (VStr user_id); Lit ":"];
                    [Lit (str_repeat "-" 60)];
                    [Lit "No API keys found"]])%list).
Proof.
  intros h env email api_key key_id c rest name expires rate_limit w
         user_id args r.
  subst r args user_id. unfold main, bind.
  cbn [Args.action Args.user_id nonempty String.eqb].
  destruct (FirebaseManager_init h None w) as [[[]|x] w1] eqn:Hi;
    [|left; exists x; reflexivity].
  assert (Hout : exists lines, stdout w1 = (stdout w ++ lines)%list).
  { destruct (FirebaseManager_init_cases h None w)
      as [(x & _ & Hx)|[(st & _ & Hx) | Hx]];
      rewrite Hi in Hx; [discriminate| |]; injection Hx as ->;
      eexists; reflexivity. }
  destruct Hout as [lines Hout].
  destruct (main_list_keys_run (String c rest) w1) as [-> | ->];
    [left; exists TypeError; reflexivity|].
  right. split; [reflexivity|]. exists lines. cbn [snd stdout].
  rewrite Hout, <- app_assoc. reflexivity.
Qed.

(** The error line of each action. *)
Lemma main_without_option (h : Host) (env : Env) (args : Args.t) (w : World) :
  match Args.action args with
  | Args.create_key =>
      nonempty (Args.user_id args) = None \/ nonempty (Args.email args) = None
  | Args.validate_key => nonempty (Args.api_key args) = None
  | Args.revoke_key | Args.usage_stats => nonempty (Args.key_id args) = None
  | Args.list_keys => nonempty (Args.user_id args) = None
  end ->
  exists option_names : string,
    main h env args w
    = bind (FirebaseManager_init h None)
        (fun _ => print [Lit ("Error: " ++ option_names)]) w.
Proof.
  unfold main. destruct (Args.action args).
  - intros [H|H]; rewrite H; [|destruct (nonempty (Args.user_id args))];
      eexists; reflexivity.
  - intros ->. eexists. reflexivity.
  - intros ->. eexists. reflexivity.
  - intros ->. eexists. reflexivity.
  - intros ->. eexists. reflexivity.
Qed.

(** X16: an action whose required option is missing or empty does
    nothing once the manager is built: the result and the database are
    those of [__init__], and one line starting with "Error: " is printed
    after its output. *)
Theorem main_missing_option_does_nothing :
  forall (h : Host) (env : Env) (args : Args.t) (w : World),
    match Args.action args with
    | Args.create_key =>
        nonempty (Args.user_id args) = None \/ nonempty (Args.email args) = None
    | Args.validate_key => nonempty (Args.api_key args) = None
    | Args.revoke_key | Args.usage_stats => nonempty (Args.key_id args) = None
    | Args.list_keys => nonempty (Args.user_id args) = None
    end ->
    let built := FirebaseManager_init h None w in
    let r := main h env args w in
    fst r = fst built
    /\ db (snd r) = db (snd built)
    /\ match fst built with
       | Ok _ =>
           exists option_names : string,
             stdout (snd r)
             = (stdout (snd built) ++ [[Lit ("Error: " ++ option_names)]])%list
       | Raise _ => snd r = snd built
       end.
Proof.
  intros h env args w H built r. subst built r.
  destruct (main_without_option h env args w H) as [names ->].
  unfold bind. destruct (FirebaseManager_init h None w) as [[[]|x] w1];
    cbn [fst snd]; repeat split.
  exists names. reflexivity.
Qed.

Lemma main_missing_option_does_nothing_witness :
  let h := mkHost true true true None (fun _ => Ok tt) (fun _ => Ok tt)
                  (Ok tt) (Ok store_issued) in
  let args :=
    Args.mk Args.create_key (Some "u9") (Some "") None None "My API Key" 365 1000 in
  let built := FirebaseManager_init h None (mkWorld None []) in
  let r := main h env1 args (mkWorld None []) in
  fst r = fst built
  /\ db (snd r) = db (snd built)
  /\ match fst built with
     | Ok _ =>
         exists option_names : string,
           stdout (snd r)
           = (stdout (snd built) ++ [[Lit ("Error: " ++ option_names)]])%list
     | Raise _ => snd r = snd built
     end.
Proof.
  intros h args.
  apply (main_missing_option_does_nothing h env1 args (mkWorld None [])).
  right. reflexivity.
Defined.


(* ================================================================== *)
(** ** The shape of a digest *)
(* ================================================================== *)

Lemma digits_length (base : Z) (width : nat) :
  forall (n : Z) (acc : string),
    String.length (digits base width n acc) = (width + String.length acc)%nat.
Proof.
  induction width as [|w IH]; intros n acc; cbn [digits]; [reflexivity|].
  rewrite IH. cbn [String.length]. lia.
Qed.


Lemma string_forallb_app (p : ascii -> bool) (a b : string) :
  string_forallb p (a ++ b) = (string_forallb p a && string_forallb p b)%bool.
Proof.
  induction a as [|c a IH]; cbn [append string_forallb]; [reflexivity|].
  rewrite IH. apply andb_assoc.
Qed.

Lemma digits_forallb (p : ascii -> bool) (base : Z) (width : nat) :
  (forall n, p (digit_char (n mod base)) = true) ->
  forall (n : Z) (acc : string),
    string_forallb p acc = true ->
    string_forallb p (digits base width n acc) = true.
Proof.
  intros Hp. induction width as [|w IH]; intros n acc Hacc; cbn [digits];
    [exact Hacc|].
  apply IH. cbn [string_forallb]. rewrite Hp, Hacc. reflexivity.
Qed.








(* ================================================================== *)
(** ** Dates written and read back *)
(* ================================================================== *)

Lemma digit_val_digit_char (n : Z) :
  digit_val (digit_char (n mod 10)) = Some (n mod 10).
Proof.
  pose proof (Z.mod_pos_bound n 10 ltac:(lia)) as H.
  assert (E : n mod 10 = 0 \/ n mod 10 = 1 \/ n mod 10 = 2 \/ n mod 10 = 3
              \/ n mod 10 = 4 \/ n mod 10 = 5 \/ n mod 10 = 6 \/ n mod 10 = 7
              \/ n mod 10 = 8 \/ n mod 10 = 9) by lia.
  repeat (destruct E as [E|E]; [rewrite E; reflexivity|]).
  rewrite E. reflexivity.
Qed.

Lemma parse_digits_digits (width : nat) :
  forall (n : Z) (acc : string) (a : Z),
    0 <= n < 10 ^ Z.of_nat width ->
    parse_digits (digits 10 width n acc) a
    = parse_digits acc (a * 10 ^ Z.of_nat width + n).
Proof.
  induction width as [|w IH]; intros n acc a Hn; cbn [digits].
  - cbn in Hn. f_equal. cbn. lia.
  - rewrite Nat2Z.inj_succ, Z.pow_succ_r in * by lia.
    rewrite IH by (split; [apply Z.div_pos; lia | apply Z.div_lt_upper_bound; lia]).
    cbn [parse_digits]. rewrite digit_val_digit_char. f_equal.
    pose proof (Z.div_mod n 10 ltac:(lia)). lia.
Qed.

Lemma parse_zpad (width : nat) (n : Z) :
  0 <= n < 10 ^ Z.of_nat width -> parse_digits (zpad width n) 0 = Some n.
Proof.
  intros H. unfold zpad. rewrite parse_digits_digits by exact H. reflexivity.
Qed.

Lemma substring_skip (a b : string) (k n : nat) :
  substring (String.length a + k) n (a ++ b) = substring k n b.
Proof.
  induction a as [|c a IH]; cbn [String.length append Nat.add substring];
    [reflexivity | exact IH].
Qed.

Lemma substring_take (a b : string) :
  substring 0 (String.length a) (a ++ b) = a.
Proof.
  induction a as [|c a IH]; cbn [String.length append substring].
  - destruct b; reflexivity.
  - rewrite IH. reflexivity.
Qed.

(** The field of [width] digits that starts [k] characters into a
    string, when that is where [zpad] wrote it. *)
Lemma field_zpad (pre post : string) (width : nat) (n : Z) :
  0 <= n < 10 ^ Z.of_nat width ->
  field (pre ++ zpad width n ++ post) (String.length pre) width = Some n.
Proof.
  intros H. unfold field.
  replace (String.length pre) with (String.length pre + 0)%nat by lia.
  rewrite substring_skip.
  replace width with (String.length (zpad width n)) at 1
    by (unfold zpad; rewrite digits_length; cbn; lia).
  rewrite substring_take. apply parse_zpad. exact H.
Qed.

Lemma field_at (s pre post : string) (k width : nat) (n : Z) :
  s = pre ++ zpad width n ++ post ->
  String.length pre = k ->
  0 <= n < 10 ^ Z.of_nat width ->
  field s k width = Some n.
Proof. intros -> <- H. apply field_zpad. exact H. Qed.

Lemma well_formed_bounds (t : datetime) :
  well_formed t = true ->
  0 <= year t < 10 ^ 4 /\ 0 <= month t < 10 ^ 2 /\ 0 <= day t < 10 ^ 2
  /\ 0 <= hour t < 10 ^ 2 /\ 0 <= minute t < 10 ^ 2 /\ 0 <= second t < 10 ^ 2
  /\ 0 <= microsecond t < 10 ^ 6.
Proof.
  unfold well_formed. intros H.
  repeat (apply andb_true_iff in H; destruct H as [H ?]).
  repeat match goal with
         | H : (_ <=? _) = true |- _ => apply Z.leb_le in H
         | H : (_ <? _) = true |- _ => apply Z.ltb_lt in H
         end.
  assert (day t <= 31).
  { unfold days_in_month in *.
    repeat match goal with
           | H : context [if ?b then _ else _] |- _ => destruct b
           end; lia. }
  lia.
Qed.

Lemma fromisoformat_isoformat (t : datetime) :
  well_formed t = true -> fromisoformat (isoformat t) = Ok t.
Proof.
  intros Hwf. destruct (well_formed_bounds t Hwf) as (Hy & Hmo & Hd & Hh & Hmi & Hs & Hus).
  destruct t as [y mo d h mi s us]. cbn [year month day hour minute second microsecond] in *.
  unfold fromisoformat, isoformat.
  cbn [year month day hour minute second microsecond].
  destruct (us =? 0) eqn:Eus.
  - apply Z.eqb_eq in Eus. subst us.
    set (str := zpad 4 y ++ "-" ++ zpad 2 mo ++ "-" ++ zpad 2 d ++ "T"
                ++ zpad 2 h ++ ":" ++ zpad 2 mi ++ ":" ++ zpad 2 s ++ "").
    assert (L : String.length str = 19%nat) by reflexivity.
    rewrite L. cbn [Nat.eqb orb negb].
    assert (C : (char_is str 4 "-" && char_is str 7 "-" && char_is str 13 ":"
                 && char_is str 16 ":"
                 && (String.length (substring 10 1 str) =? 1)%nat)%bool = true)
      by reflexivity.
    rewrite C. cbn [negb andb].
    rewrite (field_at str "" _ 0 4 y eq_refl eq_refl Hy).
    rewrite (field_at str (zpad 4 y ++ "-") _ 5 2 mo eq_refl eq_refl Hmo).
    rewrite (field_at str (zpad 4 y ++ "-" ++ zpad 2 mo ++ "-") _ 8 2 d
               eq_refl eq_refl Hd).
    rewrite (field_at str (zpad 4 y ++ "-" ++ zpad 2 mo ++ "-" ++ zpad 2 d ++ "T")
               _ 11 2 h eq_refl eq_refl Hh).
    rewrite (field_at str (zpad 4 y ++ "-" ++ zpad 2 mo ++ "-" ++ zpad 2 d ++ "T"
                           ++ zpad 2 h ++ ":")
               _ 14 2 mi eq_refl eq_refl Hmi).
    rewrite (field_at str (zpad 4 y ++ "-" ++ zpad 2 mo ++ "-" ++ zpad 2 d ++ "T"
                           ++ zpad 2 h ++ ":" ++ zpad 2 mi ++ ":")
               "" 17 2 s eq_refl eq_refl Hs).
    rewrite Hwf. reflexivity.
  - set (str := zpad 4 y ++ "-" ++ zpad 2 mo ++ "-" ++ zpad 2 d ++ "T"
                ++ zpad 2 h ++ ":" ++ zpad 2 mi ++ ":" ++ zpad 2 s
                ++ "." ++ zpad 6 us).
    assert (L : String.length str = 26%nat) by reflexivity.
    rewrite L. cbn [Nat.eqb orb negb].
    assert (C : (char_is str 4 "-" && char_is str 7 "-" && char_is str 13 ":"
                 && char_is str 16 ":"
                 && (String.length (substring 10 1 str) =? 1)%nat)%bool = true)
      by reflexivity.
    rewrite C. cbn [negb andb].
    assert (C' : char_is str 19 "." = true) by reflexivity.
    rewrite C'. cbn [negb].
    rewrite (field_at str "" _ 0 4 y eq_refl eq_refl Hy).
    rewrite (field_at str (zpad 4 y ++ "-") _ 5 2 mo eq_refl eq_refl Hmo).
    rewrite (field_at str (zpad 4 y ++ "-" ++ zpad 2 mo ++ "-") _ 8 2 d
               eq_refl eq_refl Hd).
    rewrite (field_at str (zpad 4 y ++ "-" ++ zpad 2 mo ++ "-" ++ zpad 2 d ++ "T")
               _ 11 2 h eq_refl eq_refl Hh).
    rewrite (field_at str (zpad 4 y ++ "-" ++ zpad 2 mo ++ "-" ++ zpad 2 d ++ "T"
                           ++ zpad 2 h ++ ":")
               _ 14 2 mi eq_refl eq_refl Hmi).
    rewrite (field_at str (zpad 4 y ++ "-" ++ zpad 2 mo ++ "-" ++ zpad 2 d ++ "T"
                           ++ zpad 2 h ++ ":" ++ zpad 2 mi ++ ":")
               _ 17 2 s eq_refl eq_refl Hs).
    rewrite (field_at str (zpad 4 y ++ "-" ++ zpad 2 mo ++ "-" ++ zpad 2 d ++ "T"
                           ++ zpad 2 h ++ ":" ++ zpad 2 mi ++ ":" ++ zpad 2 s ++ ".")
               "" 20 6 us eq_refl eq_refl Hus).
    rewrite Hwf. reflexivity.
Qed.

(* ================================================================== *)
(** ** The calendar *)
(* ================================================================== *)

Lemma days_ok_spec (leapyear : bool) (count : nat) :
  forall n0 n, days_ok leapyear count n0 = true ->
               n0 <= n < n0 + Z.of_nat count -> month_day_ok leapyear n = true.
Proof.
  induction count as [|k IH]; intros n0 n H Hn; [lia|].
  cbn [days_ok] in H. apply andb_true_iff in H. destruct H as [H0 H1].
  destruct (Z.eq_dec n n0) as [->|Hne]; [exact H0|].
  apply (IH (n0 + 1)); [exact H1 | lia].
Qed.

Lemma month_day_checked (leapyear : bool) (n : Z) :
  0 <= n < 365 -> month_day_ok leapyear n = true.
Proof.
  intros H. apply (days_ok_spec leapyear 365 0 n); [|lia].
  destruct leapyear; vm_compute; reflexivity.
Qed.

Lemma is_leap_sample (y : Z) : is_leap (sample_year (is_leap y)) = is_leap y.
Proof. destruct (is_leap y); reflexivity. Qed.

Lemma days_in_month_sample (y m : Z) :
  days_in_month (sample_year (is_leap y)) m = days_in_month y m.
Proof. unfold days_in_month. rewrite is_leap_sample. reflexivity. Qed.

Lemma days_before_month_sample (y m : Z) :
  days_before_month (sample_year (is_leap y)) m = days_before_month y m.
Proof. unfold days_before_month. rewrite is_leap_sample. reflexivity. Qed.

(** [ord2ymd] in two steps: the year from the ordinal, then the month and
    day from the day of that year. *)
Lemma ord2ymd_steps (o : Z) :
  let n0 := o - 1 in
  let n400 := n0 / 146097 in
  let r1 := n0 mod 146097 in
  let n100 := r1 / 36524 in
  let r2 := r1 mod 36524 in
  let n4 := r2 / 1461 in
  let r3 := r2 mod 1461 in
  let n1 := r3 / 365 in
  let n := r3 mod 365 in
  let y := n400 * 400 + 1 + n100 * 100 + n4 * 4 + n1 in
  ord2ymd o
  = if ((n1 =? 4) || (n100 =? 4))%bool then (y - 1, 12, 31)
    else
      let leapyear := ((n1 =? 3) && (negb (n4 =? 24) || (n100 =? 3)))%bool in
      (y, fst (month_day leapyear n), snd (month_day leapyear n)).
Proof.
  cbv zeta. unfold ord2ymd, month_day. cbv zeta.
  destruct ((_ =? 4) || (_ =? 4))%bool; [reflexivity|].
  destruct (_ <? _); reflexivity.
Qed.

Ltac euclid := Z.div_mod_to_equations; lia.

Lemma year_arith (n0 : Z) :
  0 <= n0 ->
  let n400 := n0 / 146097 in
  let r1 := n0 mod 146097 in
  let n100 := r1 / 36524 in
  let r2 := r1 mod 36524 in
  let n4 := r2 / 1461 in
  let r3 := r2 mod 1461 in
  let n1 := r3 / 365 in
  let n := r3 mod 365 in
  0 <= n400 /\ 0 <= n100 <= 4 /\ 0 <= n4 <= 24 /\ 0 <= n1 <= 4 /\ 0 <= n < 365
  /\ n0 = n400 * 146097 + n100 * 36524 + n4 * 1461 + n1 * 365 + n
  /\ (n100 = 4 -> n4 = 0 /\ n1 = 0 /\ n = 0)
  /\ (n1 = 4 -> n = 0 /\ (n100 < 4 -> n4 <= 23)).
Proof.
  intros H. cbv zeta. euclid.
Qed.

Lemma days_before_year_of (n400 n100 n4 n1 : Z) :
  0 <= n400 -> 0 <= n100 <= 3 -> 0 <= n4 <= 24 -> 0 <= n1 <= 3 ->
  days_before_year (n400 * 400 + 1 + n100 * 100 + n4 * 4 + n1)
  = n400 * 146097 + n100 * 36524 + n4 * 1461 + n1 * 365.
Proof. intros. unfold days_before_year. cbv zeta. euclid. Qed.

Ltac split_eqb :=
  repeat match goal with
         | |- context [?a =? ?b] => destruct (Z.eqb_spec a b)
         end.

Lemma is_leap_of (n400 n100 n4 n1 : Z) :
  0 <= n400 -> 0 <= n100 <= 3 -> 0 <= n4 <= 24 -> 0 <= n1 <= 3 ->
  is_leap (n400 * 400 + 1 + n100 * 100 + n4 * 4 + n1)
  = ((n1 =? 3) && (negb (n4 =? 24) || (n100 =? 3)))%bool.
Proof.
  intros. unfold is_leap. split_eqb; cbn; try reflexivity; exfalso; euclid.
Qed.

(** The last day of a leap year, which [ord2ymd] treats apart. *)
Lemma last_day_of_leap_year (n400 n100 n4 : Z) :
  0 <= n400 -> 0 <= n100 <= 3 -> 0 <= n4 <= 23 ->
  let y := n400 * 400 + n100 * 100 + n4 * 4 + 4 in
  is_leap y = true
  /\ ymd2ord y 12 31 = n400 * 146097 + n100 * 36524 + n4 * 1461 + 1461.
Proof.
  intros H400 H100 H4 y.
  assert (L : is_leap y = true).
  { subst y. unfold is_leap. split_eqb; cbn; try reflexivity; exfalso; euclid. }
  split; [exact L|].
  unfold ymd2ord.
  replace (days_before_month y 12) with 335
    by (unfold days_before_month; rewrite L; reflexivity).
  subst y. unfold days_before_year. cbv zeta. euclid.
Qed.

Lemma last_day_of_cycle (n400 : Z) :
  0 <= n400 ->
  let y := n400 * 400 + 400 in
  is_leap y = true /\ ymd2ord y 12 31 = n400 * 146097 + 146097.
Proof.
  intros H400 y.
  assert (L : is_leap y = true).
  { subst y. unfold is_leap. split_eqb; cbn; try reflexivity; exfalso; euclid. }
  split; [exact L|].
  unfold ymd2ord.
  replace (days_before_month y 12) with 335
    by (unfold days_before_month; rewrite L; reflexivity).
  subst y. unfold days_before_year. cbv zeta. euclid.
Qed.

(** For every ordinal from 1 on, [ord2ymd] gives a date of the calendar,
    and [ymd2ord] takes that date back to the ordinal. *)
Lemma ord2ymd_spec (o : Z) :
  1 <= o ->
  exists y m d,
    ord2ymd o = (y, m, d)
    /\ 1 <= y /\ 1 <= m <= 12 /\ 1 <= d <= days_in_month y m
    /\ ymd2ord y m d = o.
Proof.
  intros Ho. rewrite ord2ymd_steps. cbv zeta.
  pose proof (year_arith (o - 1) ltac:(lia)) as A. cbv zeta in A.
  set (n400 := (o - 1) / 146097) in *.
  set (r1 := (o - 1) mod 146097) in *.
  set (n100 := r1 / 36524) in *.
  set (r2 := r1 mod 36524) in *.
  set (n4 := r2 / 1461) in *.
  set (r3 := r2 mod 1461) in *.
  set (n1 := r3 / 365) in *.
  set (n := r3 mod 365) in *.
  destruct A as (H400 & H100 & H4 & H1 & Hn & Ho' & S100 & S1).
  destruct (Z.eqb_spec n1 4) as [E1|E1]; cbn [orb].
  - destruct (S1 E1) as [En Hn4].
    destruct (Z.eq_dec n100 4) as [E100|E100].
    + destruct (S100 E100) as (? & ? & ?). lia.
    + destruct (last_day_of_leap_year n400 n100 n4) as [L Y]; try lia.
      cbv zeta in L, Y.
      exists (n400 * 400 + n100 * 100 + n4 * 4 + 4), 12, 31.
      split; [f_equal; f_equal; lia|].
      split; [lia|]. split; [lia|]. split.
      * change (days_in_month _ 12) with 31. lia.
      * rewrite Y. lia.
  - destruct (Z.eqb_spec n100 4) as [E100|E100].
    + destruct (S100 E100) as (E4 & E1' & En).
      destruct (last_day_of_cycle n400 H400) as [L Y]. cbv zeta in L, Y.
      exists (n400 * 400 + 400), 12, 31.
      split; [f_equal; f_equal; lia|].
      split; [lia|]. split; [lia|]. split.
      * change (days_in_month _ 12) with 31. lia.
      * rewrite Y. lia.
    + set (y := n400 * 400 + 1 + n100 * 100 + n4 * 4 + n1).
      assert (L : is_leap y
                  = ((n1 =? 3) && (negb (n4 =? 24) || (n100 =? 3)))%bool)
        by (apply is_leap_of; lia).
      rewrite <- L.
      pose proof (month_day_checked (is_leap y) n Hn) as C.
      unfold month_day_ok in C.
      destruct (month_day (is_leap y) n) as [m d]. cbn [fst snd].
      rewrite days_in_month_sample, days_before_month_sample in C.
      repeat (apply andb_true_iff in C; destruct C as [C ?]).
      repeat match goal with
             | H : (_ <=? _) = true |- _ => apply Z.leb_le in H
             | H : (_ =? _) = true |- _ => apply Z.eqb_eq in H
             end.
      exists y, m, d. split; [reflexivity|].
      split; [subst y; lia|]. split; [lia|]. split; [lia|].
      unfold ymd2ord. subst y. rewrite days_before_year_of by lia. lia.
Qed.

Lemma days_before_year_mono (y y' : Z) :
  y <= y' -> days_before_year y <= days_before_year y'.
Proof. intros H. unfold days_before_year. cbv zeta. euclid. Qed.

Lemma days_before_year_succ (y : Z) :
  days_before_year (y + 1)
  = days_before_year y + (if is_leap y then 366 else 365).
Proof.
  unfold days_before_year, is_leap. cbv zeta.
  split_eqb; cbn [andb orb negb]; euclid.
Qed.

Lemma month_cases (m : Z) :
  1 <= m <= 12 ->
  m = 1 \/ m = 2 \/ m = 3 \/ m = 4 \/ m = 5 \/ m = 6 \/ m = 7 \/ m = 8
  \/ m = 9 \/ m = 10 \/ m = 11 \/ m = 12.
Proof. lia. Qed.

Ltac each_month H :=
  apply month_cases in H;
  repeat (destruct H as [H|H]; [subst|]); [..|subst].

Lemma month_table (leapyear : bool) (m m' : Z) :
  1 <= m <= 12 -> 1 <= m' <= 12 ->
  1 <= days_in_month (sample_year leapyear) m
  /\ 0 <= days_before_month (sample_year leapyear) m
  /\ days_before_month (sample_year leapyear) m
     + days_in_month (sample_year leapyear) m
     <= (if leapyear then 366 else 365)
  /\ (m < m' ->
      days_before_month (sample_year leapyear) m
      + days_in_month (sample_year leapyear) m
      <= days_before_month (sample_year leapyear) m').
Proof.
  intros Hm Hm'. destruct leapyear; each_month Hm; each_month Hm';
    vm_compute; repeat split; intros; discriminate.
Qed.

(** The months of a year, in [y]'s own terms. *)
Lemma month_facts (y m m' : Z) :
  1 <= m <= 12 -> 1 <= m' <= 12 ->
  1 <= days_in_month y m
  /\ 0 <= days_before_month y m
  /\ days_before_month y m + days_in_month y m
     <= (if is_leap y then 366 else 365)
  /\ (m < m' ->
      days_before_month y m + days_in_month y m <= days_before_month y m').
Proof.
  intros Hm Hm'.
  rewrite <- (days_in_month_sample y m), <- (days_before_month_sample y m),
    <- (days_before_month_sample y m').
  apply month_table; assumption.
Qed.

(** [ymd2ord] orders the dates of the calendar as the triples are
    ordered. *)
Lemma ymd2ord_lt (y m d y' m' d' : Z) :
  1 <= m <= 12 -> 1 <= d <= days_in_month y m ->
  1 <= m' <= 12 -> 1 <= d' <= days_in_month y' m' ->
  lex_lt [y; m; d] [y'; m'; d'] = true ->
  ymd2ord y m d < ymd2ord y' m' d'.
Proof.
  intros Hm Hd Hm' Hd' H. unfold ymd2ord.
  destruct (month_facts y m m' Hm Hm') as (A1 & A2 & A3 & A4).
  destruct (month_facts y' m' m Hm' Hm) as (B1 & B2 & B3 & B4).
  cbn [lex_lt] in H.
  destruct (Z.ltb_spec y y') as [Hy|Hy].
  - pose proof (days_before_year_mono (y + 1) y' ltac:(lia)) as M.
    rewrite days_before_year_succ in M. destruct (is_leap y); lia.
  - cbn [orb] in H. destruct (Z.eqb_spec y y') as [->|]; [|discriminate H].
    cbn [andb] in H.
    destruct (Z.ltb_spec m m') as [Hlt|Hge]; [specialize (A4 Hlt); lia|].
    cbn [orb] in H. destruct (Z.eqb_spec m m') as [->|]; [|discriminate H].
    cbn [andb] in H.
    destruct (Z.ltb_spec d d'); [lia|].
    cbn [orb] in H. destruct (d =? d'); discriminate H.
Qed.

Lemma lex_lt_irrefl (l : list Z) : lex_lt l l = false.
Proof.
  induction l as [|x l IH]; [reflexivity|]. cbn [lex_lt].
  rewrite Z.ltb_irrefl, Z.eqb_refl, IH. reflexivity.
Qed.

(** Two datetimes of the calendar with one time of day compare as their
    ordinals do. *)
Lemma dt_lt_same_time (a b : datetime) :
  1 <= month a <= 12 -> 1 <= day a <= days_in_month (year a) (month a) ->
  1 <= month b <= 12 -> 1 <= day b <= days_in_month (year b) (month b) ->
  time_of_day a = time_of_day b ->
  dt_lt a b = (toordinal a <? toordinal b).
Proof.
  intros Hma Hda Hmb Hdb Ht.
  destruct a as [y m d h mi s us], b as [y' m' d' h' mi' s' us'].
  cbn [year month day hour minute second microsecond] in *.
  unfold time_of_day in Ht.
  cbn [hour minute second microsecond] in Ht. injection Ht as -> -> -> ->.
  unfold dt_lt, dt_key, toordinal.
  cbn [year month day hour minute second microsecond].
  assert (T : lex_lt [h'; mi'; s'; us'] [h'; mi'; s'; us'] = false)
    by apply lex_lt_irrefl.
  destruct (lex_lt [y; m; d] [y'; m'; d']) eqn:L1.
  - pose proof (ymd2ord_lt _ _ _ _ _ _ Hma Hda Hmb Hdb L1) as O.
    apply Z.ltb_lt in O. rewrite O.
    cbn [lex_lt] in *.
    destruct (y <? y'); [reflexivity|]. cbn [orb] in *.
    destruct (y =? y'); [|discriminate L1]. cbn [andb] in *.
    destruct (m <? m'); [reflexivity|]. cbn [orb] in *.
    destruct (m =? m'); [|discriminate L1]. cbn [andb] in *.
    destruct (d <? d'); [reflexivity|]. cbn [orb] in *.
    destruct (d =? d'); discriminate L1.
  - destruct (lex_lt [y'; m'; d'] [y; m; d]) eqn:L2.
    + pose proof (ymd2ord_lt _ _ _ _ _ _ Hmb Hdb Hma Hda L2) as O.
      assert (O' : (ymd2ord y m d <? ymd2ord y' m' d') = false)
        by (apply Z.ltb_ge; lia).
      rewrite O'. cbn [lex_lt] in *.
      destruct (Z.ltb_spec y y'); [discriminate L1|]. cbn [orb] in *.
      destruct (Z.eqb_spec y y') as [->|]; [|reflexivity]. cbn [andb] in *.
      destruct (Z.ltb_spec m m'); [discriminate L1|]. cbn [orb] in *.
      destruct (Z.eqb_spec m m') as [->|]; [|reflexivity]. cbn [andb] in *.
      destruct (Z.ltb_spec d d'); [discriminate L1|]. cbn [orb] in *.
      destruct (Z.eqb_spec d d') as [->|]; [|reflexivity]. cbn [andb].
      rewrite Z.ltb_irrefl, Z.eqb_refl in L2. cbn in L2.
      rewrite !Z.ltb_irrefl, !Z.eqb_refl in L2. discriminate L2.
    + assert (E : y = y' /\ m = m' /\ d = d').
      { cbn [lex_lt] in L1, L2.
        destruct (Z.ltb_spec y y'); [discriminate L1|].
        destruct (Z.ltb_spec y' y); [discriminate L2|].
        assert (y = y') by lia. subst y'.
        rewrite Z.eqb_refl in L1, L2. cbn [orb andb] in L1, L2.
        destruct (Z.ltb_spec m m'); [discriminate L1|].
        destruct (Z.ltb_spec m' m); [discriminate L2|].
        assert (m = m') by lia. subst m'.
        rewrite Z.eqb_refl in L1, L2. cbn [orb andb] in L1, L2.
        destruct (Z.ltb_spec d d'); [discriminate L1|].
        destruct (Z.ltb_spec d' d); [discriminate L2|].
        repeat split; lia. }
      destruct E as (-> & -> & ->). rewrite Z.ltb_irrefl.
      change (lex_lt ([y'; m'; d'] ++ [h'; mi'; s'; us'])
                     ([y'; m'; d'] ++ [h'; mi'; s'; us']) = false).
      apply lex_lt_irrefl.
Qed.

Lemma add_days_spec (t : datetime) (n : Z) (t' : datetime) :
  add_days t n = Ok t' ->
  toordinal t' = toordinal t + n
  /\ time_of_day t' = time_of_day t
  /\ valid_date (year t') (month t') (day t') = true.
Proof.
  unfold add_days. destruct (999999999 <? Z.abs n); [discriminate|].
  destruct (Z.ltb_spec 0 (toordinal t + n)) as [Hlo|]; [|discriminate].
  destruct (Z.leb_spec (toordinal t + n) MAXORDINAL) as [Hhi|]; [|discriminate].
  cbn [andb].
  destruct (ord2ymd_spec (toordinal t + n) ltac:(lia))
    as (y & m & d & -> & Hy & Hm & Hd & Ho).
  intros H. injection H as <-. unfold toordinal at 1, time_of_day, valid_date.
  cbn [year month day hour minute second microsecond].
  split; [exact Ho|]. split; [reflexivity|].
  assert (y <= 9999).
  { destruct (Z.le_gt_cases y 9999) as [|Hbig]; [assumption|exfalso].
    pose proof (days_before_year_mono 10000 y ltac:(lia)) as M.
    change (days_before_year 10000) with 3652059 in M.
    destruct (month_facts y m m Hm Hm) as (_ & A2 & _).
    unfold ymd2ord, MAXORDINAL in *. lia. }
  repeat (apply andb_true_iff; split);
    first [apply Z.leb_le | apply Z.ltb_lt]; lia.
Qed.

Lemma well_formed_split (t : datetime) :
  well_formed t = true
  <-> valid_date (year t) (month t) (day t) = true
      /\ (0 <= hour t < 24 /\ 0 <= minute t < 60 /\ 0 <= second t < 60
          /\ 0 <= microsecond t < 1000000).
Proof.
  unfold well_formed, valid_date. rewrite !andb_true_iff.
  rewrite !Z.leb_le, !Z.ltb_lt. tauto.
Qed.

Lemma add_days_well_formed (t : datetime) (n : Z) (t' : datetime) :
  well_formed t = true -> add_days t n = Ok t' -> well_formed t' = true.
Proof.
  intros Hw Ha. destruct (add_days_spec t n t' Ha) as (_ & Ht & Hv).
  apply well_formed_split in Hw. destruct Hw as [_ Hw].
  apply well_formed_split. split; [exact Hv|].
  unfold time_of_day in Ht. injection Ht as -> -> -> ->. exact Hw.
Qed.

Lemma valid_date_bounds (y m d : Z) :
  valid_date y m d = true ->
  1 <= m <= 12 /\ 1 <= d <= days_in_month y m.
Proof.
  unfold valid_date. rewrite !andb_true_iff, !Z.leb_le. tauto.
Qed.

Lemma replace_Z_suffix (s : string) :
  string_forallb (fun c => negb (Ascii.eqb "Z" c)) s = true ->
  replace "Z" "" (s ++ "Z") = s.
Proof.
  unfold replace. induction s as [|c s IH]; [reflexivity|].
  cbn [string_forallb append replace_from drop_prefix].
  intros H. apply andb_true_iff in H. destruct H as [Hc Hs].
  destruct (Ascii.eqb "Z" c); [discriminate Hc|].
  rewrite (IH Hs). reflexivity.
Qed.

Lemma digit_char_not_Z (n : Z) : negb (Ascii.eqb "Z" (digit_char (n mod 10))) = true.
Proof.
  destruct (Ascii.eqb_spec "Z" (digit_char (n mod 10))) as [E|]; [|reflexivity].
  pose proof (digit_val_digit_char n) as H. rewrite <- E in H. discriminate H.
Qed.

Lemma isoformat_has_no_Z (t : datetime) :
  string_forallb (fun c => negb (Ascii.eqb "Z" c)) (isoformat t) = true.
Proof.
  unfold isoformat, zpad.
  repeat (rewrite string_forallb_app; apply andb_true_iff; split);
    try reflexivity;
    try (apply digits_forallb; [apply digit_char_not_Z | reflexivity]).
  destruct (microsecond t =? 0); [reflexivity|].
  rewrite string_forallb_app. apply andb_true_iff. split; [reflexivity|].
  apply digits_forallb; [apply digit_char_not_Z | reflexivity].
Qed.

(** What [isoformat] writes with a ["Z"] after it reads back as the same
    datetime. *)
Lemma read_date_isoformat (t : datetime) :
  well_formed t = true -> read_date (VStr (isoformat t ++ "Z")) = Ok t.
Proof.
  intros H. unfold read_date, str_replace. cbn [Res_bind].
  rewrite replace_Z_suffix by apply isoformat_has_no_Z.
  apply fromisoformat_isoformat. exact H.
Qed.

Lemma create_api_key_inv (env : Env)
    (user_id user_email name description : string)
    (expires_in_days rate_limit : Z)
    (allowed_endpoints ip_whitelist : option (list string))
    (start_delay_days : Z) (w w' : World) (k : ApiKey.t) (raw : string) :
  create_api_key env user_id user_email name description expires_in_days
    rate_limit allowed_endpoints ip_whitelist start_delay_days w
  = (Ok (k, raw), w') ->
  exists s e,
    add_days (utcnow env) start_delay_days = Ok s
    /\ add_days s expires_in_days = Ok e
    /\ ApiKey.created_at k = VStr (isoformat (utcnow env) ++ "Z")
    /\ ApiKey.start_date k = VStr (isoformat s ++ "Z")
    /\ ApiKey.expires_at k = VStr (isoformat e ++ "Z").
Proof.
  intros H.
  destruct (create_api_key_returns _ _ _ _ _ _ _ _ _ _ _ _ _ _ H)
    as (s & e & Hs & He & -> & _).
  exists s, e. repeat split; assumption || reflexivity.
Qed.

(** X18: the three dates of an issued record, read the way
    [validate_api_key] reads a stored date, give back the clock value, the
    start and the expiry that the issue computed, for every clock value
    that is a date and time of the calendar. *)
Theorem issued_dates_read_back :
  forall (env : Env) (user_id user_email name description : string)
         (expires_in_days rate_limit : Z)
         (allowed_endpoints ip_whitelist : option (list string))
         (start_delay_days : Z) (w w' : World) (k : ApiKey.t) (raw : string),
    well_formed (utcnow env) = true ->
    create_api_key env user_id user_email name description expires_in_days
      rate_limit allowed_endpoints ip_whitelist start_delay_days w
    = (Ok (k, raw), w') ->
    exists s e : datetime,
      add_days (utcnow env) start_delay_days = Ok s
      /\ add_days s expires_in_days = Ok e
      /\ read_date (ApiKey.created_at k) = Ok (utcnow env)
      /\ read_date (ApiKey.start_date k) = Ok s
      /\ read_date (ApiKey.expires_at k) = Ok e.
Proof.
  intros env user_id user_email name description expires_in_days rate_limit
         allowed_endpoints ip_whitelist start_delay_days w w' k raw Hw Hc.
  destruct (create_api_key_inv _ _ _ _ _ _ _ _ _ _ _ _ _ _ Hc)
    as (s & e & Hs & He & -> & -> & ->).
  exists s, e. split; [exact Hs|]. split; [exact He|].
  pose proof (add_days_well_formed _ _ _ Hw Hs) as Hws.
  pose proof (add_days_well_formed _ _ _ Hws He) as Hwe.
  repeat split; apply read_date_isoformat; assumption.
Qed.

Lemma issued_dates_read_back_witness :
  exists s e : datetime,
    add_days (utcnow env1) 0 = Ok s
    /\ add_days s 30 = Ok e
    /\ read_date (ApiKey.created_at key_issued) = Ok (utcnow env1)
    /\ read_date (ApiKey.start_date key_issued) = Ok s
    /\ read_date (ApiKey.expires_at key_issued) = Ok e.
Proof.
  apply (issued_dates_read_back env1 "u1" "u1@example.com" "My API Key" "" 30 2
           None None 0 live0 world_issued key_issued (generate_api_key env1));
    vm_compute; reflexivity.
Defined.

(** X19: in an issued record the start date lies [start_delay_days]
    days after the clock value and the expiry [expires_in_days] days after
    the start, counted in days of the calendar, both at the clock's time
    of day, and both are dates of the calendar in years 1 to 9999. *)
Theorem issued_dates_days_apart :
  forall (env : Env) (user_id user_email name description : string)
         (expires_in_days rate_limit : Z)
         (allowed_endpoints ip_whitelist : option (list string))
         (start_delay_days : Z) (w w' : World) (k : ApiKey.t) (raw : string),
    create_api_key env user_id user_email name description expires_in_days
      rate_limit allowed_endpoints ip_whitelist start_delay_days w
    = (Ok (k, raw), w') ->
    exists s e : datetime,
      ApiKey.start_date k = VStr (isoformat s ++ "Z")
      /\ ApiKey.expires_at k = VStr (isoformat e ++ "Z")
      /\ toordinal s = toordinal (utcnow env) + start_delay_days
      /\ toordinal e = toordinal s + expires_in_days
      /\ time_of_day s = time_of_day (utcnow env)
      /\ time_of_day e = time_of_day (utcnow env)
      /\ valid_date (year s) (month s) (day s) = true
      /\ valid_date (year e) (month e) (day e) = true.
Proof.
  intros env user_id user_email name description expires_in_days rate_limit
         allowed_endpoints ip_whitelist start_delay_days w w' k raw Hc.
  destruct (create_api_key_inv _ _ _ _ _ _ _ _ _ _ _ _ _ _ Hc)
    as (s & e & Hs & He & _ & -> & ->).
  destruct (add_days_spec _ _ _ Hs) as (Os & Ts & Vs).
  destruct (add_days_spec _ _ _ He) as (Oe & Te & Ve).
  exists s, e. repeat split; try assumption. congruence.
Qed.

Lemma issued_dates_days_apart_witness :
  exists s e : datetime,
    ApiKey.start_date key_issued = VStr (isoformat s ++ "Z")
    /\ ApiKey.expires_at key_issued = VStr (isoformat e ++ "Z")
    /\ toordinal s = toordinal (utcnow env1) + 0
    /\ toordinal e = toordinal s + 30
    /\ time_of_day s = time_of_day (utcnow env1)
    /\ time_of_day e = time_of_day (utcnow env1)
    /\ valid_date (year s) (month s) (day s) = true
    /\ valid_date (year e) (month e) (day e) = true.
Proof.
  apply (issued_dates_days_apart env1 "u1" "u1@example.com" "My API Key" "" 30 2
           None None 0 live0 world_issued key_issued (generate_api_key env1)).
  vm_compute. reflexivity.
Defined.

(** X20: for an issued record, in the comparison [validate_api_key]
    uses: the clock value is before the start exactly when
    [start_delay_days] is positive, the expiry is before the start exactly
    when [expires_in_days] is negative, and the expiry is before the clock
    value exactly when the two add up to a negative number. *)
Theorem issued_window_order :
  forall (env : Env) (user_id user_email name description : string)
         (expires_in_days rate_limit : Z)
         (allowed_endpoints ip_whitelist : option (list string))
         (start_delay_days : Z) (w w' : World) (k : ApiKey.t) (raw : string),
    well_formed (utcnow env) = true ->
    create_api_key env user_id user_email name description expires_in_days
      rate_limit allowed_endpoints ip_whitelist start_delay_days w
    = (Ok (k, raw), w') ->
    exists s e : datetime,
      read_date (ApiKey.start_date k) = Ok s
      /\ read_date (ApiKey.expires_at k) = Ok e
      /\ dt_lt (utcnow env) s = (0 <? start_delay_days)
      /\ dt_lt e s = (expires_in_days <? 0)
      /\ dt_lt e (utcnow env) = (start_delay_days + expires_in_days <? 0).
Proof.
  intros env user_id user_email name description expires_in_days rate_limit
         allowed_endpoints ip_whitelist start_delay_days w w' k raw Hw Hc.
  destruct (create_api_key_inv _ _ _ _ _ _ _ _ _ _ _ _ _ _ Hc)
    as (s & e & Hs & He & _ & -> & ->).
  pose proof (add_days_well_formed _ _ _ Hw Hs) as Hws.
  pose proof (add_days_well_formed _ _ _ Hws He) as Hwe.
  destruct (add_days_spec _ _ _ Hs) as (Os & Ts & Vs).
  destruct (add_days_spec _ _ _ He) as (Oe & Te & Ve).
  apply valid_date_bounds in Vs, Ve. destruct Vs as [Ms Ds], Ve as [Me De].
  apply well_formed_split in Hw. destruct Hw as [Vn _].
  apply valid_date_bounds in Vn. destruct Vn as [Mn Dn].
  exists s, e.
  split; [apply read_date_isoformat; exact Hws|].
  split; [apply read_date_isoformat; exact Hwe|].
  rewrite !dt_lt_same_time by (assumption || congruence).
  rewrite Oe, Os. repeat split.
  - destruct (Z.ltb_spec (toordinal (utcnow env))
                (toordinal (utcnow env) + start_delay_days));
      destruct (Z.ltb_spec 0 start_delay_days); lia || reflexivity.
  - destruct (Z.ltb_spec
                (toordinal (utcnow env) + start_delay_days + expires_in_days)
                (toordinal (utcnow env) + start_delay_days));
      destruct (Z.ltb_spec expires_in_days 0); lia || reflexivity.
  - destruct (Z.ltb_spec
                (toordinal (utcnow env) + start_delay_days + expires_in_days)
                (toordinal (utcnow env)));
      destruct (Z.ltb_spec (start_delay_days + expires_in_days) 0);
      lia || reflexivity.
Qed.

Lemma issued_window_order_witness :
  exists s e : datetime,
    read_date (ApiKey.start_date key_issued) = Ok s
    /\ read_date (ApiKey.expires_at key_issued) = Ok e
    /\ dt_lt (utcnow env1) s = (0 <? 0)
    /\ dt_lt e s = (30 <? 0)
    /\ dt_lt e (utcnow env1) = (0 + 30 <? 0).
Proof.
  apply (issued_window_order env1 "u1" "u1@example.com" "My API Key" "" 30 2
           None None 0 live0 world_issued key_issued (generate_api_key env1));
    vm_compute; reflexivity.
Defined.
